(** * MBDAaaS dashboard: telemetry aggregation and model-evaluation shaping

    A shallow embedding of the data-flow logic of the React front end
    ([App.tsx], [services/api.ts], [components/ThreatCharts.tsx] with the
    [LiveEvents] component, [components/ROCCurve.tsx]) and the properties
    of the specification checked against it.

    Conventions of the embedding:
    - a JavaScript [number] that holds a measurement (AUC, rates,
      confidence) is a binary64 float ([PrimFloat.float]); a number that
      only ever counts ([x + 1] from [0], a read counter) is an [N] or a
      [Z]: array lengths are below [2^32], so the counting is exact;
    - a JavaScript string is a [string], one character per code unit;
    - a plain object used as a dictionary is a list of own properties in
      creation order ([JSObject]), because the code enumerates it;
    - an HTTP request is its outcome ([http_outcome]); a React component is
      its state record, one function per [useEffect] fetch cycle and a
      [render] function that returns the screen it shows. *)

From Stdlib Require Import ZArith NArith List Bool Ascii String Lia.
From Stdlib Require Import Floats.
From stdpp Require Import base tactics option list strings pretty.

Local Open Scope string_scope.
Local Open Scope list_scope.

(** A decimal literal such as [0.95] denotes the nearest binary64 value, in
    JavaScript as here. *)
Local Set Warnings "-inexact-float".
Local Set Warnings "-register-all".

(** ** JavaScript strings *)

Module JSString.

(** [s.slice(0, n)] for [n >= 0]: the first [n] code units. *)
Fixpoint slice0 (n : nat) (s : string) : string :=
  match n, s with
  | O, _ => EmptyString
  | S _, EmptyString => EmptyString
  | S n', String a s' => String a (slice0 n' s')
  end.

Definition is_digit (a : ascii) : bool :=
  ((48 <=? N_of_ascii a) && (N_of_ascii a <=? 57))%N.

Fixpoint digits_value (acc : N) (s : string) : option N :=
  match s with
  | EmptyString => Some acc
  | String a s' =>
      if is_digit a
      then digits_value (acc * 10 + (N_of_ascii a - 48))%N s'
      else None
  end.

(** A property key is an _array index_ when it is the canonical decimal
    writing of an integer in [0, 2^32 - 2] (ECMAScript 6.1.7): no sign, no
    leading zero. *)
Definition array_index (s : string) : option N :=
  match s with
  | EmptyString => None
  | String "0" EmptyString => Some 0%N
  | String "0" _ => None
  | _ =>
      match digits_value 0 s with
      | Some n => if (n <? 2 ^ 32 - 1)%N then Some n else None
      | None => None
      end
  end.

Definition is_array_index (s : string) : bool :=
  match array_index s with Some _ => true | None => false end.

End JSString.

(** ** Plain objects as dictionaries *)

Module JSObject.

(** The own enumerable string-keyed data properties, in creation order. *)
Definition t (V : Type) : Type := list (string * V).

Definition empty {V} : t V := [].

Fixpoint get_own {V} (o : t V) (k : string) : option V :=
  match o with
  | [] => None
  | (k', v) :: o' => if String.eqb k' k then Some v else get_own o' k
  end.

(** Assignment to an own data property: an existing property keeps its
    place, a new one is created last. *)
Fixpoint set_own {V} (o : t V) (k : string) (v : V) : t V :=
  match o with
  | [] => [(k, v)]
  | (k', v') :: o' =>
      if String.eqb k' k then (k', v) :: o' else (k', v') :: set_own o' k v
  end.

Fixpoint insert_by_index {V} (e : N * (string * V))
    (l : list (N * (string * V))) : list (N * (string * V)) :=
  match l with
  | [] => [e]
  | e' :: l' =>
      if (fst e <=? fst e')%N then e :: l else e' :: insert_by_index e l'
  end.

Fixpoint index_properties {V} (o : t V) : list (N * (string * V)) :=
  match o with
  | [] => []
  | (k, v) :: o' =>
      match JSString.array_index k with
      | Some n => insert_by_index (n, (k, v)) (index_properties o')
      | None => index_properties o'
      end
  end.

Definition named_properties {V} (o : t V) : t V :=
  List.filter (fun kv => negb (JSString.is_array_index (fst kv))) o.

(** [Object.entries(o)], in the order of OrdinaryOwnPropertyKeys: the
    array-index keys in ascending numeric order, then the other keys in
    creation order. *)
Definition entries {V} (o : t V) : list (string * V) :=
  List.map snd (index_properties o) ++ named_properties o.

(** [Object.keys(o)]. *)
Definition keys {V} (o : t V) : list string := List.map fst (entries o).

(** The names every object created by [{}] inherits from
    [Object.prototype]. *)
Definition prototype_names : list string :=
  [ "constructor"; "__defineGetter__"; "__defineSetter__";
    "hasOwnProperty"; "__lookupGetter__"; "__lookupSetter__";
    "isPrototypeOf"; "propertyIsEnumerable"; "toString"; "valueOf";
    "__proto__"; "toLocaleString" ].

Definition inherited (k : string) : bool :=
  existsb (String.eqb k) prototype_names.

End JSObject.

(** ** JSON values

    What [response.json()] can yield. An object holds its own properties in
    creation order, with distinct names. *)

Inductive json : Type :=
| JNull
| JBool (b : bool)
| JNumber (x : float)
| JString (s : string)
| JArray (items : list json)
| JObject (properties : list (string * json)).

Module JSON.

(** Truthiness, as [&&] and [||] test it: [null], [false], [0], [NaN] and
    the empty string are falsy. *)
Definition truthy (v : json) : bool :=
  match v with
  | JNull => false
  | JBool b => b
  | JNumber x => negb ((x =? 0)%float || negb (x =? x)%float)
  | JString s => negb (String.eqb s "")
  | JArray _ => true
  | JObject _ => true
  end.

(** [v.k] on a value that is neither [null] nor [undefined], for a name [k]
    that no prototype, array or string defines (such as [prediction] and
    [confidence]): the own property of an object, [undefined] otherwise. *)
Definition field (k : string) (v : json) : option json :=
  match v with
  | JObject properties => JSObject.get_own properties k
  | _ => None
  end.

End JSON.

(** ** Events and predictions *)

(** The verdict the Event interface declares for [ml_prediction]. *)
Record Prediction : Type := {
  prediction : string;
  confidence : float
}.

(** The body of an answer that carries the verdict [p]. *)
Definition verdict_body (p : Prediction) : json :=
  JObject [("prediction", JString (prediction p));
           ("confidence", JNumber (confidence p))].

(** An event as [GET /api/live-events] delivers it. [ml_prediction] is
    whatever was stored under that name, if anything: the enrichment
    stores the decoded body of [POST /api/predict] as it is. *)
Record Event : Type := {
  timestamp : string;
  user_id : string;
  action : string;
  table_name : string;
  is_suspicious : bool;
  ml_prediction : option json
}.

(** ** HTTP requests

    [await fetch(..)] rejects when the request does not complete;
    otherwise it yields a response with its [ok] flag (status 2xx), whose
    [json()] rejects when the body does not decode. *)
Inductive http_outcome (B : Type) : Type :=
| NetworkError
| Response (ok : bool) (body : option B).
Arguments NetworkError {B}.
Arguments Response {B} ok body.

(** ** Payloads of the analytics service *)

Module Payload.

(** [GET /api/live-events]; a field the body lacks reads [undefined]. *)
Record LiveEvents : Type := {
  events : option (list Event);
  attack_types : option (JSObject.t Z);
  total_events : option Z;
  suspicious_count : option Z
}.

End Payload.

(** ** ThreatCharts *)

Module ThreatCharts.

Record TimelinePoint : Type := {
  time : string;
  threats : N;
  normal : N
}.

(** [processTimeline]. *)
Definition processTimeline (events : list Event) : list TimelinePoint :=
  imap (fun idx event =>
          {| time := "T" ++ pretty (idx + 1)%nat;
             threats := if is_suspicious event then 1%N else 0%N;
             normal := if is_suspicious event then 0%N else 1%N |})
       events.

(** What a property of [userCounts] can hold: a count, or the text that
    [+ 1] builds once the left operand is not a number. *)
Inductive count_value : Type :=
| CNum (n : N)
| CText (s : string).

(** The text [ToString] gives for the value inherited under [k]:
    [Object.prototype] itself for [__proto__], the constructor [Object]
    for [constructor], a built-in method otherwise (printed as V8 does). *)
Definition inherited_text (k : string) : string :=
  if String.eqb k "__proto__" then "[object Object]"
  else if String.eqb k "constructor"
       then "function Object() { [native code] }"
       else "function " ++ k ++ "() { [native code] }".

(** [(userCounts[k] || 0) + 1]. *)
Definition bumped (userCounts : JSObject.t count_value) (k : string)
  : count_value :=
  match JSObject.get_own userCounts k with
  | Some (CNum n) => CNum (n + 1)
  | Some (CText s) =>
      if String.eqb s "" then CNum 1 else CText (s ++ "1")
  | None =>
      if JSObject.inherited k then CText (inherited_text k ++ "1")
      else CNum 1
  end.

(** [userCounts[k] = v]. Without an own property [__proto__] the
    assignment runs the inherited setter, which ignores a value that is
    not an object; here [v] never is one. *)
Definition assign (userCounts : JSObject.t count_value) (k : string)
    (v : count_value) : JSObject.t count_value :=
  if String.eqb k "__proto__" then userCounts
  else JSObject.set_own userCounts k v.

Definition count_step (userCounts : JSObject.t count_value) (k : string)
  : JSObject.t count_value :=
  assign userCounts k (bumped userCounts k).

(** The object a [forEach] over the keys leaves in [userCounts]. *)
Definition count_keys (ks : list string) : JSObject.t count_value :=
  fold_left count_step ks JSObject.empty.

Record UserActivityPoint : Type := {
  user : string;
  actions : count_value
}.

(** [processUserActivity]. *)
Definition processUserActivity (events : list Event)
  : list UserActivityPoint :=
  let userCounts := count_keys (List.map user_id events) in
  List.map (fun '(user, actions) =>
              {| user := JSString.slice0 15 user; actions := actions |})
           (take 5 (JSObject.entries userCounts)).

Record CategoryPoint : Type := {
  name : string;
  value : count_value
}.

Record AttackPoint : Type := {
  attack_name : string;
  attack_value : Z
}.

(** [processActionDistribution]. *)
Definition processActionDistribution (events : list Event)
  : list CategoryPoint :=
  let actionCounts := count_keys (List.map action events) in
  List.map (fun '(name, value) => {| name := name; value := value |})
           (JSObject.entries actionCounts).

(** [processAttackTypes]. *)
Definition processAttackTypes (data : Payload.LiveEvents)
  : list AttackPoint :=
  let attackTypes := default JSObject.empty (Payload.attack_types data) in
  List.map (fun '(name, value) =>
              {| attack_name := name; attack_value := value |})
           (JSObject.entries attackTypes).

(** *** The component *)

Record ChartData : Type := {
  timeline : list TimelinePoint;
  userActivity : list UserActivityPoint;
  actionDistribution : list CategoryPoint;
  attackTypes : list AttackPoint
}.

(** What the [try] block computes from a decoded body. *)
Definition charts_of (data : Payload.LiveEvents) : ChartData :=
  let events := default [] (Payload.events data) in
  {| timeline := processTimeline events;
     userActivity := processUserActivity events;
     actionDistribution := processActionDistribution events;
     attackTypes := processAttackTypes data |}.

(** The component state, [chartData]. *)
Definition State : Type := option ChartData.

Definition initial : State := None.

(** One run of [fetchChartData]: [setChartData] on success, only a
    console message in the [catch]. The [ok] flag is not looked at. *)
Definition fetchChartData (chartData : State)
    (response : http_outcome Payload.LiveEvents) : State :=
  match response with
  | Response _ (Some data) => Some (charts_of data)
  | Response _ None => chartData
  | NetworkError => chartData
  end.

Inductive Screen : Type :=
| LoadingAnalytics
| Charts (shown : ChartData).

Definition render (chartData : State) : Screen :=
  match chartData with
  | None => LoadingAnalytics
  | Some shown => Charts shown
  end.

(** The state after the runs of the interval timer, oldest first. *)
Definition run (chartData : State)
    (responses : list (http_outcome Payload.LiveEvents)) : State :=
  fold_left fetchChartData responses chartData.

End ThreatCharts.

(** ** LiveEvents: enrichment of the event stream *)

Module LiveEvents.

(** [{ ...event, ml_prediction: prediction }]. *)
Definition with_prediction (event : Event) (prediction : json) : Event :=
  {| timestamp := timestamp event;
     user_id := user_id event;
     action := action event;
     table_name := table_name event;
     is_suspicious := is_suspicious event;
     ml_prediction := Some prediction |}.

(** The async callback of [rawEvents.map]: its promise always fulfils,
    with the merged event when [fetch] and [json()] both completed,
    whatever the status and the shape of the body, and with the event
    itself from the [catch]. *)
Definition predict (response : http_outcome json) (event : Event)
  : Event :=
  match response with
  | Response _ (Some prediction) => with_prediction event prediction
  | Response _ None => event
  | NetworkError => event
  end.

(** [Promise.all(rawEvents.map(..))]: no promise rejects, so the result is
    the array of their values in the order of the promises. [net i e] is
    the outcome of the [POST /api/predict] issued for event [e] at index
    [i]. *)
Definition enrich (net : nat -> Event -> http_outcome json)
    (rawEvents : list Event) : list Event :=
  imap (fun i event => predict (net i event) event) rawEvents.

Record Stats : Type := {
  total : Z;
  suspicious : Z
}.

Record State : Type := {
  events : list Event;
  stats : Stats
}.

Definition initial : State :=
  {| events := []; stats := {| total := 0; suspicious := 0 |} |}.

(** [x || 0] on a number that may be missing. *)
Definition or_zero (x : option Z) : Z := default 0%Z x.

(** One run of [fetchEventsWithPredictions]. *)
Definition fetchEventsWithPredictions (s : State)
    (response : http_outcome Payload.LiveEvents)
    (net : nat -> Event -> http_outcome json) : State :=
  match response with
  | Response _ (Some data) =>
      let rawEvents := default [] (Payload.events data) in
      {| events := enrich net rawEvents;
         stats := {| total := or_zero (Payload.total_events data);
                     suspicious := or_zero (Payload.suspicious_count data) |} |}
  | Response _ None => s
  | NetworkError => s
  end.

(** What one run receives: the outcome of [GET /api/live-events] and the
    outcomes of the prediction requests. *)
Record Cycle : Type := {
  live_response : http_outcome Payload.LiveEvents;
  predict_responses : nat -> Event -> http_outcome json
}.

(** The state after the runs of the interval timer, oldest first. *)
Definition run (s : State) (cycles : list Cycle) : State :=
  fold_left (fun s c =>
               fetchEventsWithPredictions s (live_response c)
                                          (predict_responses c))
            cycles s.

Inductive ColorScheme : Type := red | orange | yellow.

(** [getConfidenceColor]. *)
Definition getConfidenceColor (confidence : float) : ColorScheme :=
  if (0.8 <? confidence)%float then red
  else if (0.6 <? confidence)%float then orange
  else yellow.

(** [event.ml_prediction?.prediction === 'suspicious']. *)
Definition flagged (event : Event) : bool :=
  match ml_prediction event with
  | Some v =>
      match JSON.field "prediction" v with
      | Some (JString s) => String.eqb s "suspicious"
      | _ => false
      end
  | None => false
  end.

(** The confidence badge and bar of a row: absent, or coloured by
    [getConfidenceColor] of the value found under [confidence], which may
    be missing. *)
Inductive Badge : Type :=
| NoBadge
| BadgeFor (confidence : option json).

(** [getConfidenceColor(c)] for a value that need not be a number: the
    comparisons convert [undefined] to NaN, [null] and [false] to 0 and
    [true] to 1; the conversion of strings, arrays and objects to numbers
    is not modelled. *)
Definition badgeScheme (c : option json) : option ColorScheme :=
  match c with
  | None => Some (getConfidenceColor nan)
  | Some JNull => Some (getConfidenceColor 0)
  | Some (JBool b) => Some (getConfidenceColor (if b then 1 else 0))
  | Some (JNumber x) => Some (getConfidenceColor x)
  | Some (JString _) => None
  | Some (JArray _) => None
  | Some (JObject _) => None
  end.

(** The colour decisions of one row of the stream: background, left
    border, the scheme of the action badge, and the confidence badge. *)
Record Row : Type := {
  bg : string;
  borderLeftColor : string;
  actionScheme : string;
  confidenceBadge : Badge
}.

(** Evaluating the JSX of a row either yields the row or throws. *)
Inductive RowOutcome : Type :=
| Drawn (r : Row)
| TypeError.

(** One row. The badge is built under [event.ml_prediction && ..], and
    building it calls [event.ml_prediction.prediction.toUpperCase()], which
    throws unless a string is stored under [prediction]. *)
Definition row (event : Event) : RowOutcome :=
  let colours (badge : Badge) :=
    {| bg := if flagged event then "red.50" else "gray.50";
       borderLeftColor := if flagged event then "red.500" else "green.500";
       actionScheme := if flagged event then "red" else "green";
       confidenceBadge := badge |} in
  match ml_prediction event with
  | None => Drawn (colours NoBadge)
  | Some v =>
      if JSON.truthy v
      then match JSON.field "prediction" v with
           | Some (JString _) =>
               Drawn (colours (BadgeFor (JSON.field "confidence" v)))
           | _ => TypeError
           end
      else Drawn (colours NoBadge)
  end.

(** The stream below the two badges: the rows when [events.length > 0],
    the "No events yet" text otherwise. The component throws when one of
    its rows does. *)
Inductive Stream : Type :=
| NoEventsYet
| Rows (rows : list RowOutcome).

Record Screen : Type := {
  shown_total : Z;
  shown_threats : Z;
  stream : Stream
}.

Definition render (s : State) : Screen :=
  {| shown_total := total (stats s);
     shown_threats := suspicious (stats s);
     stream := if (0 <? length (events s))%nat
               then Rows (List.map row (events s))
               else NoEventsYet |}.

End LiveEvents.

(** ** ROCCurve *)

Module ROCCurve.

Record Interpretation : Type := {
  i_auc : float;
  quality : string
}.

(** The body of [GET /api/model-roc]; [fpr] may be missing, which the
    component tests for. *)
Record ROCData : Type := {
  fpr : option (list float);
  tpr : list float;
  thresholds : list float;
  auc : float;
  interpretation : Interpretation
}.

(** A point of [chartData]; an index past the end of [tpr] or
    [thresholds] reads [undefined]. *)
Record ROCPoint : Type := {
  p_fpr : float;
  p_tpr : option float;
  p_threshold : option float
}.

Record RefPoint : Type := {
  r_fpr : float;
  r_tpr : float
}.

(** [chartData]. *)
Definition chartData (fprs : list float) (rocData : ROCData)
  : list ROCPoint :=
  imap (fun idx f =>
          {| p_fpr := f;
             p_tpr := tpr rocData !! idx;
             p_threshold := thresholds rocData !! idx |})
       fprs.

(** [referenceData]. *)
Definition referenceData : list RefPoint :=
  [ {| r_fpr := 0; r_tpr := 0 |}; {| r_fpr := 1; r_tpr := 1 |} ].

Inductive Color : Type := green | blue | orange | red.

(** [getAUCColor]. *)
Definition getAUCColor (auc : float) : Color :=
  if (0.95 <=? auc)%float then green
  else if (0.90 <=? auc)%float then blue
  else if (0.80 <=? auc)%float then orange
  else red.

Record Chart : Type := {
  curve : list ROCPoint;
  diagonal : list RefPoint;
  badge : Color
}.

(** The component body after its state is read: [null] until a body with
    an [fpr] field has arrived. *)
Definition render (rocData : option ROCData) : option Chart :=
  match rocData with
  | None => None
  | Some d =>
      match fpr d with
      | None => None
      | Some fprs =>
          Some {| curve := chartData fprs d;
                  diagonal := referenceData;
                  badge := getAUCColor (auc d) |}
      end
  end.

(** One run of [fetchROC]: [setRocData] with whatever body decoded. *)
Definition fetchROC (rocData : option ROCData)
    (response : http_outcome ROCData) : option ROCData :=
  match response with
  | Response _ (Some data) => Some data
  | Response _ None => rocData
  | NetworkError => rocData
  end.

(** The state after the runs of the interval timer, oldest first. *)
Definition run (rocData : option ROCData)
    (responses : list (http_outcome ROCData)) : option ROCData :=
  fold_left fetchROC responses rocData.

(** The word of the interpretation text,
    [rocData.auc >= 0.95 ? ' perfect' : ' excellent']. *)
Definition interpretation_word (auc : float) : string :=
  if (0.95 <=? auc)%float then " perfect" else " excellent".

End ROCCurve.

(** ** ConfusionMatrix *)

Module ConfusionMatrix.

Record Matrix : Type := {
  true_negative : Z;
  false_positive : Z;
  false_negative : Z;
  true_positive : Z
}.

Record Metrics : Type := {
  accuracy : float;
  precision : float;
  recall : float;
  specificity : float
}.

(** The body of [GET /api/model-metrics]; [confusion_matrix] may be
    missing, which the component tests for. *)
Record ConfusionMatrixData : Type := {
  confusion_matrix : option Matrix;
  metrics : Metrics;
  test_size : Z
}.

(** One run of [fetchMetrics]. *)
Definition fetchMetrics (data : option ConfusionMatrixData)
    (response : http_outcome ConfusionMatrixData)
  : option ConfusionMatrixData :=
  match response with
  | Response _ (Some result) => Some result
  | Response _ None => data
  | NetworkError => data
  end.

Definition run (data : option ConfusionMatrixData)
    (responses : list (http_outcome ConfusionMatrixData))
  : option ConfusionMatrixData :=
  fold_left fetchMetrics responses data.

(** The panel: the four cells, the four numbers handed to [toFixed(1)] and
    the test size. *)
Record Panel : Type := {
  cells : Matrix;
  percents : float * float * float * float;
  samples : Z
}.

(** The component body after its state is read. *)
Definition render (data : option ConfusionMatrixData) : option Panel :=
  match data with
  | None => None
  | Some d =>
      match confusion_matrix d with
      | None => None
      | Some cm =>
          Some {| cells := cm;
                  percents := (accuracy (metrics d) * 100,
                               precision (metrics d) * 100,
                               recall (metrics d) * 100,
                               specificity (metrics d) * 100)%float;
                  samples := test_size d |}
      end
  end.

End ConfusionMatrix.

(** ** services/api.ts *)

Module Api.

(** A settled promise. The reason of a rejection is left out: no [catch]
    of the program looks at it. *)
Inductive promise (A : Type) : Type :=
| Fulfilled (a : A)
| Rejected.
Arguments Fulfilled {A} a.
Arguments Rejected {A}.

(** [response.json()]. *)
Definition json {A} (body : option A) : promise A :=
  match body with
  | Some a => Fulfilled a
  | None => Rejected
  end.

(** The shared body of [getTestData] and [getHealth]: [throw] unless
    [response.ok]. *)
Definition checked {A} (response : http_outcome A) : promise A :=
  match response with
  | NetworkError => Rejected
  | Response ok body => if negb ok then Rejected else json body
  end.

(** [getTestData]: [GET /api/test]. *)
Definition getTestData {A} (response : http_outcome A) : promise A :=
  checked response.

(** [getHealth]: [GET /health]. *)
Definition getHealth {A} (response : http_outcome A) : promise A :=
  checked response.

(** [fetch(url).then(r => r.json())]: the status is not tested. *)
Definition unchecked {A} (response : http_outcome A) : promise A :=
  match response with
  | NetworkError => Rejected
  | Response _ body => json body
  end.

(** [Promise.all([p1, p2, p3])]. *)
Definition all3 {A B C} (p1 : promise A) (p2 : promise B) (p3 : promise C)
  : promise (A * B * C) :=
  match p1, p2, p3 with
  | Fulfilled a, Fulfilled b, Fulfilled c => Fulfilled (a, b, c)
  | _, _, _ => Rejected
  end.

End Api.

(** ** App.tsx: the Dashboard *)

Module App.

Record TestCounters : Type := {
  total_events : Z;
  anomalies : Z;
  accuracy : float
}.

Record TestData : Type := {
  message : string;
  data : TestCounters
}.

Record HealthData : Type := {
  status : string;
  services_api : string
}.

(** [nosy_admins] may be missing from the body ([nosy_admins || {}]). *)
Record NosyAdminData : Type := {
  nosy_admins : option (JSObject.t Z);
  threshold : Z;
  total_admin_reads : Z
}.

(** The inline request of [fetchData],
    [fetch('.../api/detect/nosy-admin').then(r => r.json())]. *)
Definition nosyAdminRequest (r : http_outcome NosyAdminData)
  : Api.promise NosyAdminData :=
  Api.unchecked r.

(** The [useState] cells of [Dashboard]; a date is its time value. *)
Record State : Type := {
  testData : option TestData;
  healthData : option HealthData;
  nosyAdmins : option NosyAdminData;
  loading : bool;
  error : option string;
  lastUpdate : Z
}.

(** The state at mount (and after [window.location.reload()]). *)
Definition initial (now : Z) : State :=
  {| testData := None; healthData := None; nosyAdmins := None;
     loading := true; error := None; lastUpdate := now |}.

(** What one cycle receives: the outcomes of its three requests and the
    clock read by [new Date()]. *)
Record Cycle : Type := {
  test_response : http_outcome TestData;
  health_response : http_outcome HealthData;
  nosy_response : http_outcome NosyAdminData;
  now : Z
}.

(** The awaited [Promise.all] of [fetchData]. *)
Definition summary (c : Cycle)
  : Api.promise (TestData * HealthData * NosyAdminData) :=
  Api.all3 (Api.getTestData (test_response c))
           (Api.getHealth (health_response c))
           (nosyAdminRequest (nosy_response c)).

(** One run of [fetchData]. *)
Definition fetchData (s : State) (c : Cycle) : State :=
  match summary c with
  | Api.Fulfilled (test, health, nosyAdmin) =>
      {| testData := Some test;
         healthData := Some health;
         nosyAdmins := Some nosyAdmin;
         loading := false;
         error := error s;
         lastUpdate := now c |}
  | Api.Rejected =>
      {| testData := testData s;
         healthData := healthData s;
         nosyAdmins := nosyAdmins s;
         loading := false;
         error := Some "Failed to connect to backend";
         lastUpdate := lastUpdate s |}
  end.

(** The state after the cycles of the interval timer, oldest first. *)
Definition run (s : State) (cycles : list Cycle) : State :=
  fold_left fetchData cycles s.

(** [nosyAdmins.nosy_admins || {}]. *)
Definition mapping (d : NosyAdminData) : JSObject.t Z :=
  default JSObject.empty (nosy_admins d).

(** [hasNosyAdmins], as the condition it is used for: [null] (nothing
    fetched yet) is falsy. *)
Definition hasNosyAdmins (nosyAdmins : option NosyAdminData) : bool :=
  match nosyAdmins with
  | None => false
  | Some d => (0 <? length (JSObject.keys (mapping d)))%nat
  end.

(** The summary part of the ready screen. *)
Record Summary : Type := {
  shown_test : option TestData;
  shown_health : option HealthData;
  shown_alert : option (list (string * Z));
  shown_update : Z
}.

Inductive Screen : Type :=
| Initializing
| ConnectionError (error : string)
| Ready (shown : Summary).

(** The alert box: the entries of [nosy_admins] when [hasNosyAdmins]. *)
Definition alert (nosyAdmins : option NosyAdminData)
  : option (list (string * Z)) :=
  if hasNosyAdmins nosyAdmins
  then match nosyAdmins with
       | Some d => Some (JSObject.entries (mapping d))
       | None => None
       end
  else None.

(** The body of [Dashboard] after the hooks: [if (loading)], then
    [if (error)] (an empty string is falsy), then the dashboard. *)
Definition render (s : State) : Screen :=
  if loading s then Initializing
  else match error s with
       | Some e =>
           if negb (String.eqb e "") then ConnectionError e
           else Ready {| shown_test := testData s;
                         shown_health := healthData s;
                         shown_alert := alert (nosyAdmins s);
                         shown_update := lastUpdate s |}
       | None =>
           Ready {| shown_test := testData s;
                    shown_health := healthData s;
                    shown_alert := alert (nosyAdmins s);
                    shown_update := lastUpdate s |}
       end.

End App.

(** ** The properties of the specification, in its own words *)

Module Spec.

(** The distinct elements of a list, in the order of first encounter. *)
Fixpoint first_seen (l : list string) : list string :=
  match l with
  | [] => []
  | x :: l' =>
      x :: List.filter (fun y => negb (String.eqb y x)) (first_seen l')
  end.

(** How many times [u] occurs in [l]. *)
Definition occurrences (u : string) (l : list string) : N :=
  N.of_nat (length (List.filter (String.eqb u) l)).

(** The object whose properties are the names [ks], in that order, each
    holding [f] of its name. *)
Definition tabulate {V} (f : string -> V) (ks : list string)
  : JSObject.t V :=
  List.map (fun u => (u, f u)) ks.

(** The count map of the specification: every distinct user, created in
    the order of first encounter, with the number of its events. *)
Definition counted (users : list string)
  : JSObject.t ThreatCharts.count_value :=
  tabulate (fun u => ThreatCharts.CNum (occurrences u users))
           (first_seen users).

(** "Return the first 5 distinct users encountered in the iteration order
    of the count map, each paired with its count, username truncated to 15
    characters." *)
Definition iteration_top5 (events : list Event)
  : list ThreatCharts.UserActivityPoint :=
  List.map (fun kv =>
              {| ThreatCharts.user := JSString.slice0 15 (fst kv);
                 ThreatCharts.actions := snd kv |})
           (take 5 (JSObject.entries (counted (List.map user_id events)))).

(** "The first 5 distinct user_ids in encounter order, each paired with
    the total count of that user's events, username truncated to 15
    characters." *)
Definition first_seen_top5 (events : list Event)
  : list ThreatCharts.UserActivityPoint :=
  let users := List.map user_id events in
  List.map (fun u =>
              {| ThreatCharts.user := JSString.slice0 15 u;
                 ThreatCharts.actions :=
                   ThreatCharts.CNum (occurrences u users) |})
           (take 5 (first_seen users)).

(** A user id that names no property inherited from [Object.prototype]. *)
Definition own_name (k : string) : bool := negb (JSObject.inherited k).

(** A user id that the counting object treats as an ordinary name:
    neither an array index nor a name inherited from [Object.prototype]. *)
Definition ordinary_name (k : string) : bool :=
  negb (JSString.is_array_index k) && own_name k.

(** "AlertState = exists u: AdminReadCounter[u] > threshold." *)
Definition AlertState (counter : JSObject.t Z) (threshold : Z) : bool :=
  existsb (fun kv => (threshold <? snd kv)%Z) counter.

(** The body an answer delivered: the request completed and its body
    decoded, whatever the status. *)
Definition succeeded {B} (response : http_outcome B) : option B :=
  match response with
  | Response _ body => body
  | NetworkError => None
  end.

(** The fields of an event as the source delivered them. *)
Definition delivered (e : Event) : string * string * string * string * bool :=
  (timestamp e, user_id e, action e, table_name e, is_suspicious e).

(** A request succeeded, as the specification counts it (4.2, 7): it
    completed with a 2xx status and a body that decoded. *)
Definition verdict_of {B} (response : http_outcome B) : option B :=
  match response with
  | Response true (Some b) => Some b
  | _ => None
  end.

(** "Position i holds the input event merged with its prediction verdict
    if the i-th prediction request succeeded and the original unenriched
    event otherwise": the fields the source delivered, and what is found
    under [ml_prediction]. *)
Definition expected_prediction (response : http_outcome json) (e : Event)
  : option json :=
  match verdict_of response with
  | Some v => Some v
  | None => ml_prediction e
  end.

(** The two counts of a timeline point, and the step the specification
    asks for an event: "threat_count = 1, normal_count = 0 if
    is_suspicious else the reverse". *)
Definition counts (p : ThreatCharts.TimelinePoint) : N * N :=
  (ThreatCharts.threats p, ThreatCharts.normal p).

Definition step_of (e : Event) : N * N :=
  if is_suspicious e then (1, 0)%N else (0, 1)%N.

(** A summary request fails when its promise rejects. [getTestData] and
    [getHealth] reject on a request that does not complete, on a status
    outside 2xx and on a body that does not decode. *)
Definition fails_checked {B} (response : http_outcome B) : bool :=
  match response with
  | Response true (Some _) => false
  | _ => true
  end.

(** The nosy-admin request, whose status the code does not test, rejects on
    a request that does not complete and on a body that does not decode. *)
Definition fails_unchecked {B} (response : http_outcome B) : bool :=
  match response with
  | Response _ (Some _) => false
  | _ => true
  end.

(** The awaited [Promise.all] of a cycle rejects: one of its three
    promises does. *)
Definition some_fetch_fails (c : App.Cycle) : bool :=
  fails_checked (App.test_response c)
  || fails_checked (App.health_response c)
  || fails_unchecked (App.nosy_response c).

(** "Any one of the three primary fetches test/health/nosy-admin fails",
    as the specification counts a failure (4.2, 7): the request does not
    complete, its status is outside 2xx or its body does not decode. *)
Definition some_source_fails (c : App.Cycle) : bool :=
  fails_checked (App.test_response c)
  || fails_checked (App.health_response c)
  || fails_checked (App.nosy_response c).

(** The "last successful snapshot" the Dashboard holds. *)
Definition snapshot (s : App.State)
  : option App.TestData * option App.HealthData
    * option App.NosyAdminData * Z :=
  (App.testData s, App.healthData s, App.nosyAdmins s, App.lastUpdate s).

(** The screen of the connection-error state. *)
Definition connection_error : App.Screen :=
  App.ConnectionError "Failed to connect to backend".

(** The quality buckets, worst first. *)
Definition rank (c : ROCCurve.Color) : nat :=
  match c with
  | ROCCurve.red => 0
  | ROCCurve.orange => 1
  | ROCCurve.blue => 2
  | ROCCurve.green => 3
  end.

(** A key other than [__proto__]. *)
Definition not_proto (k : string) : bool := negb (String.eqb k "__proto__").

(** The body of the last response that decoded, if any. *)
Fixpoint last_body {B} (responses : list (http_outcome B)) : option B :=
  match responses with
  | [] => None
  | r :: rest =>
      match last_body rest with
      | Some b => Some b
      | None => succeeded r
      end
  end.

(** The number a count object holds under a name; a text counts for
    nothing. *)
Definition number_of (v : ThreatCharts.count_value) : N :=
  match v with
  | ThreatCharts.CNum n => n
  | ThreatCharts.CText _ => 0%N
  end.

(** The sum of a list of numbers. *)
Definition sum (ns : list N) : N := fold_right N.add 0%N ns.

(** The rank of a confidence scheme, mildest first. *)
Definition severity (c : LiveEvents.ColorScheme) : nat :=
  match c with
  | LiveEvents.yellow => 0
  | LiveEvents.orange => 1
  | LiveEvents.red => 2
  end.

(** The row of an event that is not flagged and carries no prediction. *)
Definition plain_row : LiveEvents.Row :=
  {| LiveEvents.bg := "gray.50";
     LiveEvents.borderLeftColor := "green.500";
     LiveEvents.actionScheme := "green";
     LiveEvents.confidenceBadge := LiveEvents.NoBadge |}.

(** The row of an event with the verdict [label] at confidence [c]. *)
Definition verdict_row (label : string) (c : float) : LiveEvents.Row :=
  {| LiveEvents.bg :=
       if String.eqb label "suspicious" then "red.50" else "gray.50";
     LiveEvents.borderLeftColor :=
       if String.eqb label "suspicious" then "red.500" else "green.500";
     LiveEvents.actionScheme :=
       if String.eqb label "suspicious" then "red" else "green";
     LiveEvents.confidenceBadge := LiveEvents.BadgeFor (Some (JNumber c)) |}.

End Spec.

(** ** Sample inputs for the scenarios *)

Definition sample_event (u : string) (suspicious : bool) : Event :=
  {| timestamp := "2024-01-01T00:00:00";
     user_id := u;
     action := "READ";
     table_name := "meter_readings";
     is_suspicious := suspicious;
     ml_prediction := None |}.

(** The batch [A,B,A,C,B,D,E,F] of the specification. *)
Definition lettered_batch : list Event :=
  List.map (fun u => sample_event u false)
           ["A"; "B"; "A"; "C"; "B"; "D"; "E"; "F"].

(** Six users, the last of which has a numeric id. *)
Definition numbered_batch : list Event :=
  List.map (fun u => sample_event u false)
           ["alice"; "bob"; "carol"; "dave"; "erin"; "7"].

Definition point (u : string) (n : N) : ThreatCharts.UserActivityPoint :=
  {| ThreatCharts.user := u; ThreatCharts.actions := ThreatCharts.CNum n |}.

(** An event with the given action. *)
Definition action_event (a : string) : Event :=
  {| timestamp := "2024-01-01T00:00:00";
     user_id := "operator";
     action := a;
     table_name := "meter_readings";
     is_suspicious := false;
     ml_prediction := None |}.

(** Four events with three distinct actions. *)
Definition action_batch : list Event :=
  List.map action_event ["READ"; "WRITE"; "READ"; "DELETE"].

(** The same batch followed by an action named like an inherited property
    and by a numeric one. *)
Definition mixed_action_batch : list Event :=
  action_batch ++ [action_event "constructor"; action_event "7"].

(** The point of the action distribution for [a] with count [n]. *)
Definition slice (a : string) (n : N) : ThreatCharts.CategoryPoint :=
  {| ThreatCharts.name := a; ThreatCharts.value := ThreatCharts.CNum n |}.

(** A verdict of the inference service. *)
Definition verdict (label : string) (c : float) : json :=
  verdict_body {| prediction := label; confidence := c |}.

(** Prediction outcomes in which the request for the second event fails. *)
Definition second_fails (i : nat) (e : Event) : http_outcome json :=
  if Nat.eqb i 1 then NetworkError
  else Response true (Some (verdict "suspicious" 0.9)).

(** The body of an error answer, as a FastAPI service sends it. *)
Definition error_body : json :=
  JObject [("detail", JString "Internal Server Error")].

(** Prediction outcomes in which every request is answered 500 with an
    error body. *)
Definition server_errors (i : nat) (e : Event) : http_outcome json :=
  Response false (Some error_body).

(** A nosy-admin error body: decoded, without [nosy_admins]. *)
Definition nosy_error : App.NosyAdminData :=
  {| App.nosy_admins := None;
     App.threshold := 0;
     App.total_admin_reads := 0 |}.

(** A ROC body with three points. *)
Definition sample_roc : ROCCurve.ROCData :=
  {| ROCCurve.fpr := Some [0; 0.25; 1]%float;
     ROCCurve.tpr := [0; 0.75; 1]%float;
     ROCCurve.thresholds := [1.5; 0.5; 0]%float;
     ROCCurve.auc := 0.875%float;
     ROCCurve.interpretation :=
       {| ROCCurve.i_auc := 0.875%float; ROCCurve.quality := "good" |} |}.

(** A ROC body whose [tpr] is one entry short. *)
Definition ragged_roc : ROCCurve.ROCData :=
  {| ROCCurve.fpr := Some [0; 0.25; 1]%float;
     ROCCurve.tpr := [0; 0.75]%float;
     ROCCurve.thresholds := [1.5; 0.5; 0]%float;
     ROCCurve.auc := 0.875%float;
     ROCCurve.interpretation :=
       {| ROCCurve.i_auc := 0.875%float; ROCCurve.quality := "good" |} |}.

(** An error body: decoded, but without [fpr]. *)
Definition error_roc : ROCCurve.ROCData :=
  {| ROCCurve.fpr := None;
     ROCCurve.tpr := [];
     ROCCurve.thresholds := [];
     ROCCurve.auc := 0%float;
     ROCCurve.interpretation :=
       {| ROCCurve.i_auc := 0%float; ROCCurve.quality := "" |} |}.

(** A metrics body. *)
Definition sample_metrics : ConfusionMatrix.ConfusionMatrixData :=
  {| ConfusionMatrix.confusion_matrix :=
       Some {| ConfusionMatrix.true_negative := 90;
               ConfusionMatrix.false_positive := 3;
               ConfusionMatrix.false_negative := 2;
               ConfusionMatrix.true_positive := 5 |};
     ConfusionMatrix.metrics :=
       {| ConfusionMatrix.accuracy := 0.95%float;
          ConfusionMatrix.precision := 0.625%float;
          ConfusionMatrix.recall := 0.714%float;
          ConfusionMatrix.specificity := 0.968%float |};
     ConfusionMatrix.test_size := 100 |}.

(** One admin with 3 reads, reported together with a threshold of 10. *)
Definition quiet_admin : App.NosyAdminData :=
  {| App.nosy_admins := Some [("admin_1", 3%Z)];
     App.threshold := 10;
     App.total_admin_reads := 3 |}.

(** Two admins, both above the threshold of 10. *)
Definition nosy_pair : App.NosyAdminData :=
  {| App.nosy_admins := Some [("admin_1", 25%Z); ("admin_2", 12%Z)];
     App.threshold := 10;
     App.total_admin_reads := 37 |}.

Definition sample_test : App.TestData :=
  {| App.message := "API is working";
     App.data := {| App.total_events := 1000; App.anomalies := 42;
                    App.accuracy := 0.97%float |} |}.

Definition sample_health : App.HealthData :=
  {| App.status := "healthy"; App.services_api := "running" |}.

(** A cycle in which the three requests deliver. *)
Definition good_cycle (now : Z) : App.Cycle :=
  {| App.test_response := Response true (Some sample_test);
     App.health_response := Response true (Some sample_health);
     App.nosy_response := Response true (Some nosy_pair);
     App.now := now |}.

(** A cycle in which [/health] answers 503 while the other two deliver. *)
Definition health_down_cycle (now : Z) : App.Cycle :=
  {| App.test_response := Response true (Some sample_test);
     App.health_response := Response false None;
     App.nosy_response := Response true (Some nosy_pair);
     App.now := now |}.

(** A cycle in which [/api/test] and [/health] deliver and the nosy-admin
    request is answered outside 2xx with a body that decodes. *)
Definition nosy_error_cycle (test : App.TestData) (health : App.HealthData)
    (body : App.NosyAdminData) (now : Z) : App.Cycle :=
  {| App.test_response := Response true (Some test);
     App.health_response := Response true (Some health);
     App.nosy_response := Response false (Some body);
     App.now := now |}.

(** The Dashboard after a first good cycle at time 10, mounted at time 0. *)
Definition ready_dashboard : App.State :=
  App.fetchData (App.initial 0) (good_cycle 10).

(** The Dashboard after a first failed cycle. *)
Definition failed_dashboard : App.State :=
  App.fetchData (App.initial 0) (health_down_cycle 10).

Definition sample_live : Payload.LiveEvents :=
  {| Payload.events := Some [sample_event "u1" true; sample_event "u2" false];
     Payload.attack_types := Some [("sql_injection", 2%Z)];
     Payload.total_events := Some 2%Z;
     Payload.suspicious_count := Some 1%Z |}.

(** * Properties *)

(** ** Timeline *)

Section Timeline.
Import ThreatCharts.

Lemma processTimeline_length (events : list Event) :
  length (processTimeline events) = length events.
Proof. unfold processTimeline. apply length_imap. Qed.

Lemma processTimeline_lookup (events : list Event) (i : nat) :
  Spec.counts <$> processTimeline events !! i = Spec.step_of <$> events !! i.
Proof.
  unfold processTimeline. rewrite list_lookup_imap.
  destruct (events !! i) as [e|]; simpl; [|reflexivity].
  unfold Spec.counts, Spec.step_of; simpl.
  destruct (is_suspicious e); reflexivity.
Qed.

(** C7: the timeline has exactly one point per event, in input order,
    with [threats = 1, normal = 0] for a suspicious event and
    [threats = 0, normal = 1] otherwise; the batch with [is_suspicious =
    [true; false; true]] yields [(1,0); (0,1); (1,0)]. *)
Theorem processTimeline_one_point_per_event :
  (forall events : list Event,
      length (processTimeline events) = length events
      /\ forall i, Spec.counts <$> processTimeline events !! i
                   = Spec.step_of <$> events !! i)
  /\ Spec.counts <$> processTimeline [sample_event "u1" true;
                                 sample_event "u2" false;
                                 sample_event "u3" true]
     = [(1, 0); (0, 1); (1, 0)]%N.
Proof.
  split; [|reflexivity].
  intros events; split.
  - apply processTimeline_length.
  - apply processTimeline_lookup.
Qed.

End Timeline.

(** ** Enrichment *)

Section Enrichment.
Import LiveEvents.

Lemma predict_delivered (response : http_outcome json) (e : Event) :
  Spec.delivered (predict response e) = Spec.delivered e.
Proof. destruct response as [|ok [v|]]; reflexivity. Qed.

(** What the callback leaves under [ml_prediction]: the decoded body of
    the answer, whatever its status. *)
Lemma predict_prediction (response : http_outcome json) (e : Event) :
  ml_prediction (predict response e)
  = match Spec.succeeded response with
    | Some v => Some v
    | None => ml_prediction e
    end.
Proof. destruct response as [|ok [v|]]; reflexivity. Qed.

Lemma enrich_lookup net (rawEvents : list Event) (i : nat) :
  enrich net rawEvents !! i
  = (fun e => predict (net i e) e) <$> rawEvents !! i.
Proof. unfold enrich. apply list_lookup_imap. Qed.

Lemma enrich_delivered net (rawEvents : list Event) :
  Spec.delivered <$> enrich net rawEvents = Spec.delivered <$> rawEvents.
Proof.
  apply list_eq; intros i.
  rewrite !list_lookup_fmap, enrich_lookup.
  destruct (rawEvents !! i) as [e|]; simpl; [|reflexivity].
  f_equal. apply predict_delivered.
Qed.

(** C1, a defect of the code: the enrichment returns as many events as it
    received, in the input order and with the delivered fields untouched,
    and it stores the verdict of a request that succeeded and keeps the
    event of a request that did not complete or did not decode; but a
    request answered outside 2xx with a body that decodes has failed, and
    there the code stores the error body under [ml_prediction] where the
    specification keeps the original unenriched event. For one event and a
    500 answer with the body [{"detail": ..}] the output is not the
    input. *)
Theorem enrich_stores_error_bodies :
  (forall (net : nat -> Event -> http_outcome json) (rawEvents : list Event),
      length (enrich net rawEvents) = length rawEvents
      /\ Spec.delivered <$> enrich net rawEvents
         = Spec.delivered <$> rawEvents
      /\ forall i,
           ml_prediction <$> enrich net rawEvents !! i
           = (fun e =>
                match net i e with
                | Response false (Some v) => Some v
                | r => Spec.expected_prediction r e
                end) <$> rawEvents !! i)
  /\ (forall (e : Event) (v : json),
        ml_prediction (predict (Response false (Some v)) e) = Some v
        /\ Spec.expected_prediction (Response false (Some v)) e
           = ml_prediction e)
  /\ (enrich server_errors [sample_event "u1" true]
      = [ {| timestamp := "2024-01-01T00:00:00";
             user_id := "u1";
             action := "READ";
             table_name := "meter_readings";
             is_suspicious := true;
             ml_prediction := Some error_body |} ]
      /\ enrich server_errors [sample_event "u1" true]
         <> [sample_event "u1" true]).
Proof.
  split; [|split].
  - intros net rawEvents. split; [unfold enrich; apply length_imap|].
    split; [apply enrich_delivered|].
    intros i. rewrite enrich_lookup.
    destruct (rawEvents !! i) as [e|]; simpl; [|reflexivity].
    f_equal. rewrite predict_prediction.
    now destruct (net i e) as [|[] [v|]].
  - intros e v. split; reflexivity.
  - split; [reflexivity|]. vm_compute. discriminate.
Qed.

End Enrichment.

(** ** ROC shaping *)

Section ROC.
Import ROCCurve.

Lemma chartData_length (fprs : list float) (d : ROCData) :
  length (chartData fprs d) = length fprs.
Proof. unfold chartData. apply length_imap. Qed.

Lemma chartData_lookup (fprs : list float) (d : ROCData) (i : nat) :
  chartData fprs d !! i
  = (fun f => {| p_fpr := f;
                 p_tpr := tpr d !! i;
                 p_threshold := thresholds d !! i |}) <$> fprs !! i.
Proof. unfold chartData. now rewrite list_lookup_imap. Qed.

(** C5: for [fpr], [tpr] and [thresholds] of equal length the component
    draws a curve with as many points as the arrays have entries, point
    [i] being [(fpr[i], tpr[i], thresholds[i])], next to a reference
    diagonal that is exactly [(0,0), (1,1)]. *)
Theorem chartData_zips_the_arrays (d : ROCData) (fprs : list float) :
  fpr d = Some fprs ->
  length (tpr d) = length fprs ->
  length (thresholds d) = length fprs ->
  exists chart,
    render (Some d) = Some chart
    /\ length (curve chart) = length fprs
    /\ (forall i, i < length fprs ->
          exists f t th,
            fprs !! i = Some f /\ tpr d !! i = Some t
            /\ thresholds d !! i = Some th
            /\ curve chart !! i
               = Some {| p_fpr := f; p_tpr := Some t;
                         p_threshold := Some th |})
    /\ diagonal chart
       = [ {| r_fpr := 0; r_tpr := 0 |}; {| r_fpr := 1; r_tpr := 1 |} ].
Proof.
  intros Hfpr Htpr Hthr.
  eexists. split; [unfold render; rewrite Hfpr; reflexivity|].
  simpl. split; [apply chartData_length|]. split; [|reflexivity].
  intros i Hi.
  destruct (lookup_lt_is_Some_2 fprs i Hi) as [f Hf].
  destruct (lookup_lt_is_Some_2 (tpr d) i) as [t Ht]; [lia|].
  destruct (lookup_lt_is_Some_2 (thresholds d) i) as [th Hth]; [lia|].
  exists f, t, th. repeat split; try assumption.
  rewrite chartData_lookup, Hf, Ht, Hth. reflexivity.
Qed.

Lemma chartData_zips_the_arrays_witness :
  exists chart,
    render (Some sample_roc) = Some chart
    /\ length (curve chart) = length [0; 0.25; 1]%float
    /\ (forall i, i < length [0; 0.25; 1]%float ->
          exists f t th,
            [0; 0.25; 1]%float !! i = Some f
            /\ tpr sample_roc !! i = Some t
            /\ thresholds sample_roc !! i = Some th
            /\ curve chart !! i
               = Some {| p_fpr := f; p_tpr := Some t;
                         p_threshold := Some th |})
    /\ diagonal chart
       = [ {| r_fpr := 0; r_tpr := 0 |}; {| r_fpr := 1; r_tpr := 1 |} ].
Proof.
  apply (chartData_zips_the_arrays sample_roc [0; 0.25; 1]%float);
    reflexivity.
Defined.

(** The diagonal does not depend on the body at all. *)
Lemma diagonal_fixed (rocData : option ROCData) (chart : Chart) :
  render rocData = Some chart -> diagonal chart = referenceData.
Proof.
  destruct rocData as [d|]; simpl; [|discriminate].
  destruct (fpr d); [|discriminate]. intros [= <-]. reflexivity.
Qed.

End ROC.

(** ** Alerting *)

Section Alert.
Import App.

Lemma insert_by_index_length {V} (e : N * (string * V)) l :
  length (JSObject.insert_by_index e l) = S (length l).
Proof.
  induction l as [|e' l IH]; simpl; [reflexivity|].
  destruct (fst e <=? fst e')%N; simpl; [reflexivity|]. now rewrite IH.
Qed.

Lemma properties_length {V} (o : JSObject.t V) :
  length (JSObject.index_properties o)
  + length (JSObject.named_properties o) = length o.
Proof.
  unfold JSObject.named_properties.
  induction o as [|[k v] o IH]; [reflexivity|].
  cbn [JSObject.index_properties List.filter fst].
  destruct (JSString.array_index k) as [n|] eqn:Hk.
  - replace (JSString.is_array_index k) with true
      by (unfold JSString.is_array_index; now rewrite Hk).
    rewrite insert_by_index_length. cbn [negb length]. lia.
  - replace (JSString.is_array_index k) with false
      by (unfold JSString.is_array_index; now rewrite Hk).
    cbn [negb length]. lia.
Qed.

(** Enumeration neither loses nor invents a property. *)
Lemma entries_length {V} (o : JSObject.t V) :
  length (JSObject.entries o) = length o.
Proof.
  unfold JSObject.entries. rewrite length_app, length_map.
  apply properties_length.
Qed.

Lemma keys_length {V} (o : JSObject.t V) :
  length (JSObject.keys o) = length o.
Proof. unfold JSObject.keys. rewrite length_map. apply entries_length. Qed.

Lemma hasNosyAdmins_nonempty (d : NosyAdminData) :
  hasNosyAdmins (Some d) = true <-> mapping d <> [].
Proof.
  unfold hasNosyAdmins. rewrite keys_length, Nat.ltb_lt.
  destruct (mapping d); simpl; split; intros; try congruence; lia.
Qed.



(** C3, as stated, fails: one admin with 3 reads under a threshold of 10
    raises the alert although no count exceeds the threshold. *)
Lemma alert_without_count_above_threshold :
  hasNosyAdmins (Some quiet_admin) = true
  /\ Spec.AlertState (mapping quiet_admin) (threshold quiet_admin) = false
  /\ hasNosyAdmins (Some quiet_admin)
     <> Spec.AlertState (mapping quiet_admin) (threshold quiet_admin).
Proof. repeat split; vm_compute; congruence. Qed.

Lemma AlertState_nonempty (m : JSObject.t Z) (t : Z) :
  Spec.AlertState m t = true -> m <> [].
Proof. destruct m; simpl; [discriminate|congruence]. Qed.

Lemma AlertState_all_above (m : JSObject.t Z) (t : Z) :
  m <> [] -> Forall (fun kv => (t < snd kv)%Z) m ->
  Spec.AlertState m t = true.
Proof.
  destruct m as [|kv m]; [congruence|]. intros _ Hall.
  inversion Hall as [|? ? Hkv _]; subst. simpl.
  apply Z.ltb_lt in Hkv. now rewrite Hkv.
Qed.

(** C3, amended: the alert holds exactly when some admin appears in the
    counter payload; a count above the threshold implies it, and the
    alert equals the existential threshold comparison whenever every
    count in the mapping exceeds the threshold. *)
Theorem alert_is_presence_of_an_admin (d : NosyAdminData) :
  (hasNosyAdmins (Some d) = true <-> exists u c, (u, c) ∈ mapping d)
  /\ (Spec.AlertState (mapping d) (threshold d) = true ->
      hasNosyAdmins (Some d) = true)
  /\ (Forall (fun kv => (threshold d < snd kv)%Z) (mapping d) ->
      hasNosyAdmins (Some d) = Spec.AlertState (mapping d) (threshold d)).
Proof.
  split; [|split].
  - rewrite hasNosyAdmins_nonempty. split.
    + destruct (mapping d) as [|[u c] m]; [congruence|].
      intros _. exists u, c. apply list_elem_of_here.
    + intros (u & c & Hin) Heq. rewrite Heq in Hin.
      now apply not_elem_of_nil in Hin.
  - intros H. apply hasNosyAdmins_nonempty. now apply AlertState_nonempty in H.
  - intros Hall.
    destruct (hasNosyAdmins (Some d)) eqn:Hh.
    + symmetry. apply AlertState_all_above; [|assumption].
      now apply hasNosyAdmins_nonempty.
    + destruct (Spec.AlertState (mapping d) (threshold d)) eqn:Ha;
        [|reflexivity].
      apply AlertState_nonempty, hasNosyAdmins_nonempty in Ha. congruence.
Qed.

Lemma alert_is_presence_of_an_admin_witness :
  hasNosyAdmins (Some nosy_pair)
  = Spec.AlertState (mapping nosy_pair) (threshold nosy_pair).
Proof.
  apply (alert_is_presence_of_an_admin nosy_pair).
  repeat constructor; simpl; lia.
Defined.

End Alert.

(** ** The Dashboard fetch cycle *)

Section Dashboard.
Import App.

Lemma checked_rejects {B} (r : http_outcome B) :
  Spec.fails_checked r = true <-> Api.checked r = Api.Rejected.
Proof. destruct r as [|[] [b|]]; simpl; split; congruence. Qed.

Lemma unchecked_rejects {B} (r : http_outcome B) :
  Spec.fails_unchecked r = true <-> Api.unchecked r = Api.Rejected.
Proof. destruct r as [|[] [b|]]; simpl; split; congruence. Qed.

(** The three ways in which [getTestData] and [getHealth] fail. *)
Lemma fails_checked_cases {B} (r : http_outcome B) :
  Spec.fails_checked r = true
  <-> r = NetworkError \/ (exists body, r = Response false body)
      \/ r = Response true None.
Proof.
  destruct r as [|[] [b|]]; simpl; split; intros H;
    try discriminate; try reflexivity; try tauto; try (right; left; eauto).
  destruct H as [H|[[body H]|H]]; discriminate.
Qed.

(** The awaited [Promise.all] rejects exactly when one of the three
    requests fails. *)
Lemma summary_rejects (c : Cycle) :
  Spec.some_fetch_fails c = true <-> summary c = Api.Rejected.
Proof.
  unfold Spec.some_fetch_fails, summary, Api.getTestData, Api.getHealth,
    nosyAdminRequest.
  destruct (test_response c) as [|[] [t|]], (health_response c) as [|[] [h|]],
    (nosy_response c) as [|[] [n|]]; simpl; split; congruence.
Qed.

Lemma summary_fulfils (c : Cycle) :
  Spec.some_fetch_fails c = false <->
  exists test health nosyAdmin ok,
    test_response c = Response true (Some test)
    /\ health_response c = Response true (Some health)
    /\ nosy_response c = Response ok (Some nosyAdmin)
    /\ summary c = Api.Fulfilled (test, health, nosyAdmin).
Proof.
  unfold Spec.some_fetch_fails, summary, Api.getTestData, Api.getHealth,
    nosyAdminRequest.
  split.
  - destruct (test_response c) as [|[] [t|]], (health_response c) as [|[] [h|]],
      (nosy_response c) as [|ok [n|]]; simpl; try discriminate;
      intros _; exists t, h, n, ok; repeat split.
  - intros (t & h & n & ok & -> & -> & -> & _). reflexivity.
Qed.

(** The error branch of [fetchData]. *)
Lemma fetchData_rejected (s : State) (c : Cycle) :
  summary c = Api.Rejected ->
  fetchData s c
  = {| testData := testData s; healthData := healthData s;
       nosyAdmins := nosyAdmins s; loading := false;
       error := Some "Failed to connect to backend";
       lastUpdate := lastUpdate s |}.
Proof. unfold fetchData. now intros ->. Qed.

(** The success branch of [fetchData]. *)
Lemma fetchData_fulfilled (s : State) (c : Cycle) test health nosyAdmin :
  summary c = Api.Fulfilled (test, health, nosyAdmin) ->
  fetchData s c
  = {| testData := Some test; healthData := Some health;
       nosyAdmins := Some nosyAdmin; loading := false;
       error := error s; lastUpdate := now c |}.
Proof. unfold fetchData. now intros ->. Qed.

Lemma failed_cycle_screen (s : State) (c : Cycle) :
  Spec.some_fetch_fails c = true ->
  render (fetchData s c) = Spec.connection_error.
Proof.
  intros H. apply summary_rejects in H.
  rewrite (fetchData_rejected s c H). reflexivity.
Qed.

(** A status outside 2xx on the nosy-admin request alone is not a failure
    of the cycle: the body is stored as it decoded. *)
Lemma nosy_admin_status_not_tested (s : State) test health body (t : Z) :
  let c := {| test_response := Response true (Some test);
              health_response := Response true (Some health);
              nosy_response := Response false (Some body);
              now := t |} in
  Spec.some_fetch_fails c = false
  /\ nosyAdmins (fetchData s c) = Some body.
Proof. split; reflexivity. Qed.

(** When [/health] fails (the request does not complete, answers outside
    2xx, or its body does not decode), and more generally when the awaited
    [Promise.all] rejects, the cycle takes the error branch and the
    Dashboard shows the connection error; a ready screen after a cycle
    requires that [Promise.all] to have fulfilled. *)
Lemma failed_summary_fetch_is_connection_error (s : State) (c : Cycle) :
  (Spec.fails_checked (health_response c) = true ->
   Spec.fails_checked (test_response c) = false ->
   error (fetchData s c) = Some "Failed to connect to backend"
   /\ render (fetchData s c) = Spec.connection_error)
  /\ (Spec.some_fetch_fails c = true ->
      error (fetchData s c) = Some "Failed to connect to backend"
      /\ render (fetchData s c) = Spec.connection_error)
  /\ (forall shown, render (fetchData s c) = Ready shown ->
      Spec.some_fetch_fails c = false).
Proof.
  assert (Hfail : Spec.some_fetch_fails c = true ->
                  error (fetchData s c) = Some "Failed to connect to backend"
                  /\ render (fetchData s c) = Spec.connection_error).
  { intros H. split; [|now apply failed_cycle_screen].
    apply summary_rejects in H. now rewrite (fetchData_rejected s c H). }
  split; [|split].
  - intros Hh _. apply Hfail. unfold Spec.some_fetch_fails.
    rewrite Hh. now rewrite orb_true_r.
  - exact Hfail.
  - intros shown Hshown.
    destruct (Spec.some_fetch_fails c) eqn:Hc; [|reflexivity].
    rewrite (failed_cycle_screen s c Hc) in Hshown. discriminate.
Qed.

Lemma failed_summary_fetch_is_connection_error_witness :
  error (fetchData ready_dashboard (health_down_cycle 20))
  = Some "Failed to connect to backend"
  /\ render (fetchData ready_dashboard (health_down_cycle 20))
     = Spec.connection_error.
Proof.
  apply (failed_summary_fetch_is_connection_error
           ready_dashboard (health_down_cycle 20)); reflexivity.
Defined.

(** C8, a defect of the code: a failed [/health] request (not completed,
    answered outside 2xx, or not decoding) takes the error branch whatever
    the other two requests do. A nosy-admin request answered outside 2xx
    has failed as well, but its status is not tested, unlike that of its two
    siblings: when its body decodes, [Promise.all] fulfils, the cycle takes
    the success branch, stores the error body as [nosyAdmins], and a
    Dashboard that had no error shows the ready screen, not the connection
    error. *)
Theorem nosy_admin_error_answer_shows_ready (t now : Z) (test : TestData)
    (health : HealthData) (body : NosyAdminData) :
  (forall s c, Spec.fails_checked (health_response c) = true ->
               render (fetchData s c) = Spec.connection_error)
  /\ Spec.some_source_fails (nosy_error_cycle test health body now) = true
  /\ summary (nosy_error_cycle test health body now)
     = Api.Fulfilled (test, health, body)
  /\ (forall s,
        error (fetchData s (nosy_error_cycle test health body now)) = error s
        /\ nosyAdmins (fetchData s (nosy_error_cycle test health body now))
           = Some body)
  /\ render (fetchData (initial t) (nosy_error_cycle test health body now))
     = Ready {| shown_test := Some test;
                shown_health := Some health;
                shown_alert := alert (Some body);
                shown_update := now |}
  /\ render (fetchData (initial t) (nosy_error_cycle test health body now))
     <> Spec.connection_error.
Proof.
  split.
  { intros s c Hh. apply failed_cycle_screen.
    unfold Spec.some_fetch_fails. rewrite Hh. now rewrite orb_true_r. }
  repeat split; discriminate.
Qed.

End Dashboard.

(** ** The connection error is sticky *)

Section StickyError.
Import App.

(** No branch of [fetchData] clears [error] or sets [loading] again. *)
Lemma fetchData_keeps_error_screen (s : State) (c : Cycle) (e : string) :
  render s = ConnectionError e ->
  exists e', render (fetchData s c) = ConnectionError e'.
Proof.
  unfold render. destruct (loading s) eqn:Hl; [discriminate|].
  destruct (error s) as [msg|] eqn:He; [|discriminate].
  destruct (negb (String.eqb msg "")) eqn:Hmsg; [|discriminate].
  intros _. unfold fetchData. destruct (summary c) as [[[t h] n]|]; simpl.
  - rewrite He, Hmsg. now exists msg.
  - now eexists.
Qed.

Lemma run_keeps_error_screen (cycles : list Cycle) :
  forall (s : State) (e : string),
    render s = ConnectionError e ->
    exists e', render (run s cycles) = ConnectionError e'.
Proof.
  induction cycles as [|c cycles IH]; intros s e Hs; simpl.
  - now exists e.
  - destruct (fetchData_keeps_error_screen s c e Hs) as [e' He'].
    exact (IH _ _ He').
Qed.

(** C10: once the Dashboard shows the connection error it shows it after
    every later fetch cycle, whatever the outcomes; a cycle in which the
    three requests succeed stores the new data but leaves [error] as it
    was, and only the state of a fresh mount has the error cleared. *)
Theorem connection_error_is_sticky (s : State) (e : string)
    (cycles : list Cycle) :
  render s = ConnectionError e ->
  (exists e', render (run s cycles) = ConnectionError e')
  /\ (forall c, Spec.some_fetch_fails c = false ->
        error (fetchData s c) = error s
        /\ loading (fetchData s c) = false
        /\ lastUpdate (fetchData s c) = now c
        /\ render (fetchData s c) = ConnectionError e)
  /\ (forall t, error (initial t) = None /\ render (initial t) = Initializing).
Proof.
  intros Hs. split; [now apply (run_keeps_error_screen cycles s e)|].
  split; [|intros t; split; reflexivity].
  intros c Hc. apply summary_fulfils in Hc.
  destruct Hc as (t & h & n & ok & _ & _ & _ & Hsum).
  rewrite (fetchData_fulfilled s c t h n Hsum). simpl.
  repeat split; try reflexivity.
  revert Hs. unfold render. simpl.
  destruct (loading s); [discriminate|].
  destruct (error s) as [msg|]; [|discriminate].
  destruct (negb (String.eqb msg "")); [|discriminate]. exact id.
Qed.

Lemma connection_error_is_sticky_witness :
  (exists e', render (run failed_dashboard [good_cycle 20; good_cycle 30])
              = ConnectionError e')
  /\ (forall c, Spec.some_fetch_fails c = false ->
        error (fetchData failed_dashboard c) = error failed_dashboard
        /\ loading (fetchData failed_dashboard c) = false
        /\ lastUpdate (fetchData failed_dashboard c) = now c
        /\ render (fetchData failed_dashboard c)
           = ConnectionError "Failed to connect to backend")
  /\ (forall t, error (initial t) = None /\ render (initial t) = Initializing).
Proof.
  apply (connection_error_is_sticky failed_dashboard
           "Failed to connect to backend" [good_cycle 20; good_cycle 30]).
  reflexivity.
Defined.

End StickyError.

(** ** Snapshots across fetch cycles *)

Section Snapshots.
Import App.

(** C9, as stated, fails on the Dashboard: a failed cycle after a good one
    leaves the stored snapshot as it was, but the screen no longer shows
    it. *)
Lemma stale_summary_is_not_displayed :
  Spec.some_fetch_fails (health_down_cycle 20) = true
  /\ Spec.snapshot (fetchData ready_dashboard (health_down_cycle 20))
     = Spec.snapshot ready_dashboard
  /\ render ready_dashboard
     = Ready {| shown_test := Some sample_test;
                shown_health := Some sample_health;
                shown_alert := Some [("admin_1", 25%Z); ("admin_2", 12%Z)];
                shown_update := 10 |}
  /\ render (fetchData ready_dashboard (health_down_cycle 20))
     = Spec.connection_error
  /\ render (fetchData ready_dashboard (health_down_cycle 20))
     <> render ready_dashboard.
Proof. repeat split; vm_compute; congruence. Qed.

Lemma fetchChartData_failure (chartData : ThreatCharts.State)
    (r : http_outcome Payload.LiveEvents) :
  Spec.succeeded r = None ->
  ThreatCharts.fetchChartData chartData r = chartData.
Proof.
  destruct r as [|ok [d|]]; simpl; [reflexivity|discriminate|reflexivity].
Qed.

Lemma fetchChartData_success (chartData : ThreatCharts.State)
    (r : http_outcome Payload.LiveEvents) (data : Payload.LiveEvents) :
  Spec.succeeded r = Some data ->
  ThreatCharts.fetchChartData chartData r
  = Some (ThreatCharts.charts_of data).
Proof. destruct r as [|ok [d|]]; simpl; intros [= <-]. reflexivity. Qed.

(** C9, amended: every fetch cycle is atomic with respect to the stored
    snapshot. A fetch answered with a 2xx status and a body that decodes
    replaces the snapshot wholesale by values derived from the new payload
    only. A fetch whose request does not complete or whose body does not
    decode (for [/api/test] and [/health] also: whose status is outside
    2xx) leaves the snapshot unchanged; after such a failure the chart
    widget keeps showing its stale snapshot, while the Dashboard keeps its
    snapshot in state and shows the connection error instead. *)
Theorem snapshots_are_replaced_or_kept
    (chartData : ThreatCharts.State)
    (r : http_outcome Payload.LiveEvents) (s : State) (c : Cycle) :
  (forall data, r = Response true (Some data) ->
     ThreatCharts.fetchChartData chartData r
     = Some (ThreatCharts.charts_of data))
  /\ (r = NetworkError \/ (exists ok, r = Response ok None) ->
      ThreatCharts.fetchChartData chartData r = chartData
      /\ ThreatCharts.render
           (ThreatCharts.fetchChartData chartData r)
         = ThreatCharts.render chartData)
  /\ (forall test health nosyAdmin,
        test_response c = Response true (Some test) ->
        health_response c = Response true (Some health) ->
        nosy_response c = Response true (Some nosyAdmin) ->
        Spec.snapshot (fetchData s c)
        = (Some test, Some health, Some nosyAdmin, now c))
  /\ (Spec.fails_checked (test_response c) = true
      \/ Spec.fails_checked (health_response c) = true
      \/ nosy_response c = NetworkError
      \/ (exists ok, nosy_response c = Response ok None) ->
      Spec.snapshot (fetchData s c) = Spec.snapshot s
      /\ render (fetchData s c) = Spec.connection_error).
Proof.
  split; [|split; [|split]].
  - now intros data ->.
  - intros [->|[ok ->]]; split; reflexivity.
  - intros t h n Ht Hh Hn.
    rewrite (fetchData_fulfilled s c t h n); [reflexivity|].
    unfold summary. now rewrite Ht, Hh, Hn.
  - intros H.
    assert (Hc : Spec.some_fetch_fails c = true).
    { unfold Spec.some_fetch_fails.
      destruct H as [->|[->|[->|[ok ->]]]]; simpl;
        rewrite ?orb_true_r; reflexivity. }
    split; [|now apply failed_cycle_screen].
    apply summary_rejects in Hc. now rewrite (fetchData_rejected s c Hc).
Qed.

Lemma snapshots_are_replaced_or_kept_witness :
  (ThreatCharts.fetchChartData
     (Some (ThreatCharts.charts_of sample_live)) NetworkError
   = Some (ThreatCharts.charts_of sample_live)
   /\ ThreatCharts.render
        (ThreatCharts.fetchChartData
           (Some (ThreatCharts.charts_of sample_live)) NetworkError)
      = ThreatCharts.render
          (Some (ThreatCharts.charts_of sample_live)))
  /\ Spec.snapshot (fetchData ready_dashboard (good_cycle 20))
     = (Some sample_test, Some sample_health, Some nosy_pair, 20%Z)
  /\ (Spec.snapshot (fetchData ready_dashboard (health_down_cycle 20))
      = Spec.snapshot ready_dashboard
      /\ render (fetchData ready_dashboard (health_down_cycle 20))
         = Spec.connection_error).
Proof.
  pose proof (snapshots_are_replaced_or_kept
                (Some (ThreatCharts.charts_of sample_live))
                NetworkError ready_dashboard (health_down_cycle 20))
    as (_ & Hkeep & _ & Hfail).
  pose proof (snapshots_are_replaced_or_kept
                None NetworkError ready_dashboard (good_cycle 20))
    as (_ & _ & Hgood & _).
  split; [apply Hkeep; now left|].
  split; [apply Hgood; reflexivity|].
  apply Hfail. right. now left.
Defined.

End Snapshots.

(** ** AUC buckets *)

Section AUC.
Import ROCCurve.

(** The comparison of binary64 values, on their specification. *)
Lemma SFcompare_antisym (x y : spec_float) :
  SFcompare y x = option_map CompOpp (SFcompare x y).
Proof.
  destruct x as [sx|sx| |sx mx ex], y as [sy|sy| |sy my ey]; simpl;
    try destruct sx; try destruct sy; try reflexivity;
    rewrite (Z.compare_antisym ex ey); destruct (ex ?= ey)%Z; simpl;
    try reflexivity;
    change (Pos.compare_cont Eq my mx) with (Pos.compare my mx);
    change (Pos.compare_cont Eq mx my) with (Pos.compare mx my);
    rewrite (Pos.compare_antisym mx my);
    destruct (Pos.compare mx my); reflexivity.
Qed.

Lemma SFltb_not_SFleb (x y : spec_float) :
  SFltb x y = true -> SFleb y x = false.
Proof.
  unfold SFltb, SFleb. rewrite (SFcompare_antisym x y).
  destruct (SFcompare x y) as [[]|]; simpl; congruence.
Qed.

Lemma not_SFleb_SFltb (x y z : spec_float) :
  SFleb y x = false -> SFleb z x = true -> SFleb y y = true ->
  SFltb x y = true.
Proof.
  unfold SFltb, SFleb. rewrite (SFcompare_antisym x y).
  destruct x as [sx|sx| |sx mx ex], y as [sy|sy| |sy my ey],
    z as [sz|sz| |sz mz ez]; simpl; try discriminate;
    try (destruct sx, sy; simpl; congruence);
    try (destruct sx; simpl; congruence);
    try (destruct sy; simpl; congruence);
    destruct sx, sy; simpl; try congruence;
    destruct (ex ?= ey)%Z; simpl; try congruence;
    destruct (Pos.compare_cont Eq mx my); simpl; congruence.
Qed.

Ltac order_cases :=
  repeat match goal with
    | |- context [(?a ?= ?b)%Z] => destruct (Z.compare_spec a b)
    | H : context [(?a ?= ?b)%Z] |- _ => destruct (Z.compare_spec a b)
    | |- context [Pos.compare_cont Eq ?a ?b] =>
        change (Pos.compare_cont Eq a b) with (Pos.compare a b);
        destruct (Pos.compare_spec a b)
    | H : context [Pos.compare_cont Eq ?a ?b] |- _ =>
        change (Pos.compare_cont Eq a b) with (Pos.compare a b) in H;
        destruct (Pos.compare_spec a b)
    end.

Lemma SFleb_trans (x y z : spec_float) :
  SFleb x y = true -> SFleb y z = true -> SFleb x z = true.
Proof.
  unfold SFleb.
  destruct x as [sx|sx| |sx mx ex], y as [sy|sy| |sy my ey],
    z as [sz|sz| |sz mz ez]; simpl; try discriminate; try reflexivity;
    try destruct sx; try destruct sy; try destruct sz; simpl;
    try discriminate; try reflexivity;
    order_cases; simpl; try discriminate; try reflexivity;
    intros; subst; exfalso; lia.
Qed.

Lemma float_leb_trans (x y z : float) :
  (x <=? y)%float = true -> (y <=? z)%float = true -> (x <=? z)%float = true.
Proof. rewrite !leb_spec. apply SFleb_trans. Qed.

Lemma float_ltb_not_leb (x y : float) :
  (x <? y)%float = true -> (y <=? x)%float = false.
Proof. rewrite ltb_spec, leb_spec. apply SFltb_not_SFleb. Qed.

Lemma float_not_leb_ltb (x y z : float) :
  (y <=? x)%float = false -> (z <=? x)%float = true ->
  (y <=? y)%float = true -> (x <? y)%float = true.
Proof. rewrite ltb_spec, !leb_spec. apply not_SFleb_SFltb. Qed.

(** The bucket of [auc] is [lo <= auc < hi], read on the tests the code
    makes. *)
Lemma between_iff (lo hi auc : float) :
  (hi <=? hi)%float = true ->
  ((hi <=? auc)%float = false /\ (lo <=? auc)%float = true)
  <-> ((lo <=? auc)%float = true /\ (auc <? hi)%float = true).
Proof.
  intros Hhi. split.
  - intros [Hn Hl]. split; [assumption|].
    now apply (float_not_leb_ltb auc hi lo).
  - intros [Hl Hlt]. split; [|assumption]. now apply float_ltb_not_leb.
Qed.

Lemma getAUCColor_monotone (a b : float) :
  (a <=? b)%float = true ->
  Spec.rank (getAUCColor a) <= Spec.rank (getAUCColor b).
Proof.
  intros Hab. unfold getAUCColor.
  destruct (0.95 <=? a)%float eqn:Ha1.
  { now rewrite (float_leb_trans _ _ _ Ha1 Hab). }
  destruct (0.90 <=? a)%float eqn:Ha2.
  { rewrite (float_leb_trans _ _ _ Ha2 Hab).
    destruct (0.95 <=? b)%float; simpl; lia. }
  destruct (0.80 <=? a)%float eqn:Ha3.
  { rewrite (float_leb_trans _ _ _ Ha3 Hab).
    destruct (0.95 <=? b)%float, (0.90 <=? b)%float; simpl; lia. }
  simpl. lia.
Qed.

(** C6: the AUC bucket is boundary-exact and monotonic: green exactly for
    [auc >= 0.95], blue exactly for [0.90 <= auc < 0.95], orange exactly
    for [0.80 <= auc < 0.90], red otherwise (a NaN included); [0.95] is
    green, [0.9499] blue, [0.8999] orange and [0.79] red; a larger [auc]
    never gets a worse bucket. *)
Theorem getAUCColor_buckets :
  (forall auc : float,
      (getAUCColor auc = green <-> (0.95 <=? auc)%float = true)
      /\ (getAUCColor auc = blue
          <-> (0.90 <=? auc)%float = true /\ (auc <? 0.95)%float = true)
      /\ (getAUCColor auc = orange
          <-> (0.80 <=? auc)%float = true /\ (auc <? 0.90)%float = true)
      /\ (getAUCColor auc = red <-> (0.80 <=? auc)%float = false))
  /\ (getAUCColor 0.95 = green /\ getAUCColor 0.9499 = blue
      /\ getAUCColor 0.8999 = orange /\ getAUCColor 0.79 = red)
  /\ (forall a b : float,
        (a <=? b)%float = true ->
        Spec.rank (getAUCColor a) <= Spec.rank (getAUCColor b)).
Proof.
  split; [|split; [repeat split; reflexivity|exact getAUCColor_monotone]].
  intros auc.
  assert (H95 : (0.95 <=? 0.95)%float = true) by reflexivity.
  assert (H90 : (0.90 <=? 0.90)%float = true) by reflexivity.
  assert (H89 : (0.80 <=? 0.90)%float = true) by reflexivity.
  assert (H85 : (0.80 <=? 0.95)%float = true) by reflexivity.
  assert (H05 : (0.90 <=? 0.95)%float = true) by reflexivity.
  pose proof (between_iff 0.90 0.95 auc H95) as Hblue.
  pose proof (between_iff 0.80 0.90 auc H90) as Horange.
  pose proof (float_leb_trans 0.80 0.95 auc H85) as T1.
  pose proof (float_leb_trans 0.80 0.90 auc H89) as T2.
  pose proof (float_leb_trans 0.90 0.95 auc H05) as T3.
  unfold getAUCColor.
  destruct (0.95 <=? auc)%float eqn:E1.
  { specialize (T1 eq_refl). specialize (T3 eq_refl).
    repeat split; try discriminate; try congruence.
    - intros [_ H]. apply float_ltb_not_leb in H. congruence.
    - intros [_ H]. apply float_ltb_not_leb in H. congruence. }
  destruct (0.90 <=? auc)%float eqn:E2.
  { specialize (T2 eq_refl).
    repeat split; try discriminate; try congruence.
    - now apply Hblue.
    - intros [_ H]. apply float_ltb_not_leb in H. congruence. }
  destruct (0.80 <=? auc)%float eqn:E3.
  { repeat split; try discriminate; try congruence.
    - intros [H _]. congruence.
    - now apply Horange. }
  repeat split; try discriminate; try congruence.
  - intros [H _]. congruence.
  - intros [H _]. congruence.
Qed.

Lemma getAUCColor_buckets_witness :
  Spec.rank (getAUCColor 0.85) <= Spec.rank (getAUCColor 0.93).
Proof.
  apply (proj2 (proj2 getAUCColor_buckets) 0.85%float 0.93%float).
  reflexivity.
Defined.

End AUC.

(** ** User activity *)

Section UserActivity.
Import ThreatCharts.

Lemma slice0_length (n : nat) (s : string) :
  String.length (JSString.slice0 n s) <= n.
Proof.
  revert s. induction n as [|n IH]; intros [|a s]; simpl; try lia.
  specialize (IH s). lia.
Qed.

Lemma processUserActivity_length (events : list Event) :
  length (processUserActivity events) <= 5.
Proof.
  unfold processUserActivity. rewrite length_map, length_take. lia.
Qed.

Lemma processUserActivity_names (events : list Event) :
  Forall (fun p => String.length (user p) <= 15) (processUserActivity events).
Proof.
  unfold processUserActivity. apply Forall_forall. intros p Hp.
  apply list_elem_of_fmap in Hp. destruct Hp as ([u a] & -> & _).
  cbn [user]. apply slice0_length.
Qed.

(** Enumeration of an object without array-index keys is creation order. *)
Lemma entries_creation_order {V} (o : JSObject.t V) :
  forallb (fun kv => negb (JSString.is_array_index (fst kv))) o = true ->
  JSObject.entries o = o.
Proof.
  intros H. unfold JSObject.entries, JSObject.named_properties.
  assert (Hidx : JSObject.index_properties o = []).
  { induction o as [|[k v] o IH]; [reflexivity|]. simpl in H |- *.
    apply andb_true_iff in H. destruct H as [Hk Ho].
    unfold JSString.is_array_index in Hk.
    destruct (JSString.array_index k); [discriminate|]. now apply IH. }
  rewrite Hidx. simpl.
  induction o as [|kv o IH]; [reflexivity|]. simpl in H |- *.
  apply andb_true_iff in H. destruct H as [Hk Ho].
  rewrite Hk. f_equal. apply IH; [assumption|].
  clear -Hidx Hk. destruct kv as [k v]. simpl in Hidx, Hk.
  unfold JSString.is_array_index in Hk.
  destruct (JSString.array_index k); [discriminate|assumption].
Qed.

Lemma first_seen_In (x : string) (l : list string) :
  List.In x (Spec.first_seen l) <-> List.In x l.
Proof.
  induction l as [|y l IH]; simpl; [tauto|].
  rewrite List.filter_In, IH, negb_true_iff, String.eqb_neq.
  destruct (String.eqb_spec x y) as [->|Hxy]; [tauto|].
  split; [tauto|]. intros [->|H]; [congruence|]. right. tauto.
Qed.

Lemma first_seen_NoDup (l : list string) : List.NoDup (Spec.first_seen l).
Proof.
  induction l as [|y l IH]; simpl; constructor.
  - rewrite List.filter_In, negb_true_iff, String.eqb_neq. tauto.
  - now apply List.NoDup_filter.
Qed.

Lemma existsb_In (x : string) (l : list string) :
  existsb (String.eqb x) l = true <-> List.In x l.
Proof.
  rewrite List.existsb_exists. split.
  - intros (y & Hy & Heq). apply String.eqb_eq in Heq. now subst.
  - intros H. exists x. split; [assumption|apply String.eqb_refl].
Qed.

(** The encounter order grows at its end only. *)
Lemma first_seen_snoc (l : list string) (x : string) :
  Spec.first_seen (l ++ [x])
  = if existsb (String.eqb x) l then Spec.first_seen l
    else Spec.first_seen l ++ [x].
Proof.
  induction l as [|y l IH]; [reflexivity|]. simpl. rewrite IH.
  destruct (String.eqb_spec x y) as [->|Hxy]; simpl.
  - destruct (existsb (String.eqb y) l); [reflexivity|].
    rewrite List.filter_app. simpl. rewrite String.eqb_refl. simpl.
    now rewrite app_nil_r.
  - destruct (existsb (String.eqb x) l); [reflexivity|].
    rewrite List.filter_app. simpl.
    apply String.eqb_neq in Hxy. now rewrite Hxy.
Qed.

Lemma occurrences_snoc (u x : string) (l : list string) :
  Spec.occurrences u (l ++ [x])
  = (Spec.occurrences u l + if String.eqb u x then 1 else 0)%N.
Proof.
  unfold Spec.occurrences. rewrite List.filter_app, length_app. simpl.
  destruct (String.eqb u x); simpl; lia.
Qed.

Lemma occurrences_absent (x : string) (l : list string) :
  ~ List.In x l -> Spec.occurrences x l = 0%N.
Proof.
  unfold Spec.occurrences. induction l as [|y l IH]; simpl; [reflexivity|].
  intros H. destruct (String.eqb_spec x y) as [->|Hxy]; [tauto|].
  apply IH. tauto.
Qed.

Lemma get_own_tabulate {V} (f : string -> V) (ks : list string) (x : string) :
  JSObject.get_own (Spec.tabulate f ks) x
  = if existsb (String.eqb x) ks then Some (f x) else None.
Proof.
  induction ks as [|k ks IH]; [reflexivity|]. simpl.
  rewrite (String.eqb_sym x k).
  destruct (String.eqb_spec k x) as [->|Hkx]; [reflexivity|]. exact IH.
Qed.

Lemma tabulate_ext {V} (f g : string -> V) (ks : list string) :
  (forall u, List.In u ks -> g u = f u) ->
  Spec.tabulate f ks = Spec.tabulate g ks.
Proof.
  intros H. unfold Spec.tabulate. apply List.map_ext_in. intros u Hu.
  now rewrite (H u Hu).
Qed.

Lemma set_own_tabulate_old {V} (f g : string -> V) (ks : list string)
    (x : string) :
  List.NoDup ks -> List.In x ks -> (forall u, u <> x -> g u = f u) ->
  JSObject.set_own (Spec.tabulate f ks) x (g x) = Spec.tabulate g ks.
Proof.
  intros Hnd Hin Hfg. induction ks as [|k ks IH]; [destruct Hin|].
  inversion Hnd as [|? ? Hk Hks]; subst. simpl.
  destruct (String.eqb_spec k x) as [->|Hkx].
  - f_equal. apply tabulate_ext. intros u Hu. apply Hfg.
    intros ->. contradiction.
  - rewrite (Hfg k Hkx). f_equal. apply IH; [assumption|].
    destruct Hin as [->|Hin]; [congruence|assumption].
Qed.

Lemma set_own_tabulate_new {V} (f g : string -> V) (ks : list string)
    (x : string) :
  ~ List.In x ks -> (forall u, u <> x -> g u = f u) ->
  JSObject.set_own (Spec.tabulate f ks) x (g x) = Spec.tabulate g (ks ++ [x]).
Proof.
  intros Hin Hfg. induction ks as [|k ks IH]; [reflexivity|]. simpl.
  destruct (String.eqb_spec k x) as [->|Hkx]; [simpl in Hin; tauto|].
  rewrite (Hfg k Hkx). f_equal. apply IH. simpl in Hin. tauto.
Qed.

Lemma ordinary_not_proto (k : string) :
  JSObject.inherited k = false -> String.eqb k "__proto__" = false.
Proof.
  intros H. destruct (String.eqb_spec k "__proto__") as [->|]; [|reflexivity].
  discriminate.
Qed.

(** The counting loop on ordinary names: every distinct name, in the order
    of first encounter, with the number of its occurrences. *)
Lemma count_keys_counted (ks : list string) :
  forallb Spec.own_name ks = true -> count_keys ks = Spec.counted ks.
Proof.
  unfold Spec.counted.
  induction ks as [|x ks IH] using rev_ind; [reflexivity|].
  rewrite forallb_app. simpl. rewrite andb_true_r.
  intros H. apply andb_true_iff in H. destruct H as [Hks Hx].
  unfold Spec.own_name in Hx. apply negb_true_iff in Hx.
  unfold count_keys in *. rewrite fold_left_app. simpl. rewrite (IH Hks).
  unfold count_step, assign, bumped.
  rewrite (ordinary_not_proto x Hx), get_own_tabulate, first_seen_snoc.
  assert (Hother : forall u, u <> x ->
            CNum (Spec.occurrences u (ks ++ [x]))
            = CNum (Spec.occurrences u ks)).
  { intros u Hu. rewrite occurrences_snoc.
    apply String.eqb_neq in Hu. rewrite Hu. f_equal. lia. }
  destruct (existsb (String.eqb x) ks) eqn:Hseen.
  - replace (existsb (String.eqb x) (Spec.first_seen ks)) with true.
    2:{ symmetry. apply existsb_In, first_seen_In, existsb_In, Hseen. }
    replace (CNum (Spec.occurrences x ks + 1))
      with (CNum (Spec.occurrences x (ks ++ [x]))).
    2:{ rewrite occurrences_snoc, String.eqb_refl. reflexivity. }
    apply (set_own_tabulate_old
             (fun u => CNum (Spec.occurrences u ks))
             (fun u => CNum (Spec.occurrences u (ks ++ [x]))));
      [apply first_seen_NoDup| |exact Hother].
    apply first_seen_In, existsb_In, Hseen.
  - assert (Hnin : ~ List.In x ks).
    { intros Hin. apply existsb_In in Hin. congruence. }
    replace (existsb (String.eqb x) (Spec.first_seen ks)) with false.
    2:{ symmetry. apply not_true_is_false. intros Hin.
        rewrite existsb_In, first_seen_In in Hin. exact (Hnin Hin). }
    rewrite Hx.
    replace (CNum 1) with (CNum (Spec.occurrences x (ks ++ [x]))).
    2:{ rewrite occurrences_snoc, String.eqb_refl.
        now rewrite (occurrences_absent x ks Hnin). }
    apply (set_own_tabulate_new
             (fun u => CNum (Spec.occurrences u ks))
             (fun u => CNum (Spec.occurrences u (ks ++ [x]))));
      [|exact Hother].
    intros Hin. rewrite first_seen_In in Hin. exact (Hnin Hin).
Qed.


Lemma tabulate_named {V} (f : string -> V) (ks : list string) :
  forallb Spec.ordinary_name ks = true ->
  forallb (fun kv => negb (JSString.is_array_index (fst kv)))
          (Spec.tabulate f (Spec.first_seen ks)) = true.
Proof.
  intros H. apply List.forallb_forall. intros kv Hkv.
  apply List.in_map_iff in Hkv. destruct Hkv as (u & <- & Hu). simpl.
  rewrite first_seen_In in Hu.
  rewrite List.forallb_forall in H. specialize (H u Hu).
  unfold Spec.ordinary_name in H. now apply andb_true_iff in H.
Qed.

Lemma ordinary_names_own (ks : list string) :
  forallb Spec.ordinary_name ks = true -> forallb Spec.own_name ks = true.
Proof.
  rewrite !List.forallb_forall. intros H u Hu. specialize (H u Hu).
  unfold Spec.ordinary_name in H. now apply andb_true_iff in H.
Qed.

Lemma processUserActivity_iteration (events : list Event) :
  forallb Spec.own_name (List.map user_id events) = true ->
  processUserActivity events = Spec.iteration_top5 events.
Proof.
  intros H. unfold processUserActivity, Spec.iteration_top5.
  rewrite (count_keys_counted _ H). apply List.map_ext. now intros [u a].
Qed.

Lemma processUserActivity_ordinary (events : list Event) :
  forallb Spec.ordinary_name (List.map user_id events) = true ->
  processUserActivity events = Spec.first_seen_top5 events.
Proof.
  intros H.
  rewrite (processUserActivity_iteration _ (ordinary_names_own _ H)).
  unfold Spec.iteration_top5, Spec.first_seen_top5, Spec.counted.
  rewrite (entries_creation_order _ (tabulate_named _ _ H)).
  unfold Spec.tabulate. rewrite List.firstn_map, List.map_map. reflexivity.
Qed.

(** C4, as stated, fails: a numeric user id is enumerated before the names
    met earlier, so the sixth distinct user displaces the fifth. *)
Lemma numeric_user_id_is_listed_first :
  processUserActivity numbered_batch
  = [point "7" 1; point "alice" 1; point "bob" 1; point "carol" 1;
     point "dave" 1]
  /\ Spec.first_seen_top5 numbered_batch
     = [point "alice" 1; point "bob" 1; point "carol" 1; point "dave" 1;
        point "erin" 1]
  /\ processUserActivity numbered_batch <> Spec.first_seen_top5 numbered_batch.
Proof. repeat split; vm_compute; congruence. Qed.

(** Why names inherited from [Object.prototype] are set apart as well: the
    events of a user called [__proto__] are not counted at all, and the
    count of one called [constructor] is a text. *)
Lemma inherited_names_are_not_counted :
  processUserActivity [sample_event "__proto__" false] = []
  /\ processUserActivity [sample_event "constructor" false]
     = [ {| user := "constructor";
            actions := CText "function Object() { [native code] }1" |} ].
Proof. split; reflexivity. Qed.

(** C4, amended: the user-activity aggregation returns at most 5 points
    with names of at most 15 characters. When no user id is a name
    inherited from [Object.prototype], they are the first 5 entries, in the
    enumeration order of the count object, of the distinct user ids with
    the count of each user's events in the whole batch, names cut to 15
    characters; when moreover no user id is an array index, that is the
    first 5 distinct user ids in encounter order (not sorted by count);
    [A,B,A,C,B,D,E,F] yields [A:2,B:2,C:1,D:1,E:1]. *)
Theorem processUserActivity_first_seen_top5 :
  (forall events : list Event,
      length (processUserActivity events) <= 5
      /\ Forall (fun p => String.length (user p) <= 15)
                (processUserActivity events)
      /\ (forallb Spec.own_name (List.map user_id events) = true ->
          processUserActivity events = Spec.iteration_top5 events)
      /\ (forallb Spec.ordinary_name (List.map user_id events) = true ->
          processUserActivity events = Spec.first_seen_top5 events))
  /\ processUserActivity lettered_batch
     = [point "A" 2; point "B" 2; point "C" 1; point "D" 1; point "E" 1].
Proof.
  split; [|reflexivity]. intros events. split; [|split; [|split]].
  - apply processUserActivity_length.
  - apply processUserActivity_names.
  - apply processUserActivity_iteration.
  - apply processUserActivity_ordinary.
Qed.

Lemma processUserActivity_first_seen_top5_witness :
  processUserActivity lettered_batch = Spec.first_seen_top5 lettered_batch.
Proof.
  pose proof (proj1 processUserActivity_first_seen_top5 lettered_batch)
    as (_ & _ & _ & Hordinary).
  apply Hordinary. reflexivity.
Defined.

End UserActivity.

(** * Further properties of the code *)

(** ** Enumeration and the counting loop *)

Section Counting.
Import ThreatCharts.

Lemma insert_by_index_Permutation {V} (e : N * (string * V)) l :
  Permutation (JSObject.insert_by_index e l) (e :: l).
Proof.
  induction l as [|e' l IH]; simpl; [reflexivity|].
  destruct (fst e <=? fst e')%N; [reflexivity|].
  rewrite IH. apply perm_swap.
Qed.

(** [Object.entries] lists every own property exactly once. *)
Lemma entries_Permutation {V} (o : JSObject.t V) :
  Permutation (JSObject.entries o) o.
Proof.
  unfold JSObject.entries, JSObject.named_properties.
  induction o as [|[k v] o IH]; [reflexivity|].
  cbn [JSObject.index_properties List.filter fst].
  destruct (JSString.array_index k) as [n|] eqn:Hk.
  - replace (JSString.is_array_index k) with true
      by (unfold JSString.is_array_index; now rewrite Hk).
    cbn [negb]. rewrite (Permutation_map snd (insert_by_index_Permutation _ _)).
    simpl. now rewrite IH.
  - replace (JSString.is_array_index k) with false
      by (unfold JSString.is_array_index; now rewrite Hk).
    cbn [negb]. rewrite <- Permutation_middle. now rewrite IH.
Qed.

Lemma set_own_names {V} (o : JSObject.t V) (k : string) (v : V) :
  List.map fst (JSObject.set_own o k v)
  = if existsb (String.eqb k) (List.map fst o) then List.map fst o
    else List.map fst o ++ [k].
Proof.
  induction o as [|[k' v'] o IH]; [reflexivity|]. simpl.
  rewrite (String.eqb_sym k k').
  destruct (String.eqb k' k); simpl; [reflexivity|].
  rewrite IH. now destruct (existsb (String.eqb k) (List.map fst o)).
Qed.

(** Reading back what was assigned, and what was not. *)
Lemma get_own_set_own {V} (o : JSObject.t V) (k k' : string) (v : V) :
  JSObject.get_own (JSObject.set_own o k v) k'
  = if String.eqb k k' then Some v else JSObject.get_own o k'.
Proof.
  induction o as [|[k0 v0] o IH]; simpl.
  - now destruct (String.eqb k k').
  - destruct (String.eqb_spec k0 k) as [->|Hk0]; simpl.
    + now destruct (String.eqb k k').
    + rewrite IH. destruct (String.eqb_spec k k') as [<-|Hkk']; [|reflexivity].
      apply String.eqb_neq in Hk0. now rewrite Hk0.
Qed.

Lemma existsb_first_seen (x : string) (l : list string) :
  existsb (String.eqb x) (Spec.first_seen l) = existsb (String.eqb x) l.
Proof.
  apply eq_true_iff_eq. rewrite !existsb_In. apply first_seen_In.
Qed.

Lemma count_step_names (o : JSObject.t count_value) (x : string) :
  List.map fst (count_step o x)
  = if Spec.not_proto x
    then if existsb (String.eqb x) (List.map fst o) then List.map fst o
         else List.map fst o ++ [x]
    else List.map fst o.
Proof.
  unfold count_step, assign, Spec.not_proto.
  destruct (String.eqb x "__proto__"); simpl; [reflexivity|].
  apply set_own_names.
Qed.

Lemma count_keys_snoc (ks : list string) (x : string) :
  count_keys (ks ++ [x]) = count_step (count_keys ks) x.
Proof. unfold count_keys. now rewrite fold_left_app. Qed.

(** The names the counting loop leaves in the object, for every input:
    the distinct keys other than [__proto__], in the order of first
    encounter. *)
Lemma count_keys_names (ks : list string) :
  List.map fst (count_keys ks)
  = Spec.first_seen (List.filter Spec.not_proto ks).
Proof.
  induction ks as [|x ks IH] using rev_ind; [reflexivity|].
  rewrite count_keys_snoc, count_step_names, List.filter_app, IH.
  cbn [List.filter]. destruct (Spec.not_proto x).
  - now rewrite first_seen_snoc, existsb_first_seen.
  - now rewrite app_nil_r.
Qed.

Lemma occurrences_zero_iff (u : string) (l : list string) :
  Spec.occurrences u l = 0%N <-> ~ List.In u l.
Proof.
  split; [|apply occurrences_absent].
  unfold Spec.occurrences. intros H Hin.
  induction l as [|y l IH]; [destruct Hin|]. simpl in H.
  destruct (String.eqb_spec u y) as [->|Huy]; simpl in H; [lia|].
  destruct Hin as [->|Hin]; [congruence|]. now apply IH.
Qed.

(** The count the loop holds under a name that is not inherited, whatever
    the other keys are. *)
Lemma count_keys_lookup (ks : list string) (u : string) :
  JSObject.inherited u = false ->
  JSObject.get_own (count_keys ks) u
  = if (Spec.occurrences u ks =? 0)%N then None
    else Some (CNum (Spec.occurrences u ks)).
Proof.
  intros Hu. induction ks as [|x ks IH] using rev_ind; [reflexivity|].
  rewrite count_keys_snoc, occurrences_snoc. unfold count_step, assign.
  destruct (String.eqb_spec x "__proto__") as [->|Hx].
  - rewrite IH. replace (String.eqb u "__proto__") with false
      by (symmetry; now apply ordinary_not_proto).
    now rewrite N.add_0_r.
  - rewrite get_own_set_own, (String.eqb_sym x u).
    destruct (String.eqb_spec u x) as [<-|Hux].
    + unfold bumped. rewrite IH, Hu.
      destruct (Spec.occurrences u ks =? 0)%N eqn:Hz.
      * apply N.eqb_eq in Hz. rewrite Hz. reflexivity.
      * destruct (Spec.occurrences u ks + 1 =? 0)%N eqn:Hz'; [|reflexivity].
        apply N.eqb_eq in Hz'. lia.
    + rewrite IH. now rewrite N.add_0_r.
Qed.

Lemma get_own_In {V} (o : JSObject.t V) (k : string) (v : V) :
  List.NoDup (List.map fst o) ->
  List.In (k, v) o <-> JSObject.get_own o k = Some v.
Proof.
  induction o as [|[k0 v0] o IH]; simpl; intros Hnd.
  - split; [tauto|discriminate].
  - inversion Hnd as [|? ? Hk0 Hnd']; subst.
    destruct (String.eqb_spec k0 k) as [->|Hk0k].
    + split.
      * intros [[= ->]|Hin]; [reflexivity|].
        exfalso. apply Hk0. now apply (List.in_map fst) in Hin.
      * intros [= ->]. now left.
    + rewrite <- (IH Hnd'). split; [|tauto].
      intros [[= -> ->]|Hin]; [congruence|assumption].
Qed.

Lemma count_keys_NoDup (ks : list string) :
  List.NoDup (List.map fst (count_keys ks)).
Proof. rewrite count_keys_names. apply first_seen_NoDup. Qed.

Lemma entries_names_Permutation {V} (o : JSObject.t V) :
  Permutation (List.map fst (JSObject.entries o)) (List.map fst o).
Proof. apply Permutation_map, entries_Permutation. Qed.

End Counting.

(** ** The action distribution *)

Section ActionDistribution.
Import ThreatCharts.

Lemma processActionDistribution_names (events : list Event) :
  List.map name (processActionDistribution events)
  = List.map fst (JSObject.entries (count_keys (List.map action events))).
Proof.
  unfold processActionDistribution. rewrite List.map_map.
  apply List.map_ext. now intros [a v].
Qed.

Lemma processActionDistribution_In (events : list Event) (a : string)
    (v : count_value) :
  List.In {| name := a; value := v |} (processActionDistribution events)
  <-> JSObject.get_own (count_keys (List.map action events)) a = Some v.
Proof.
  rewrite <- (get_own_In _ a v (count_keys_NoDup _)).
  unfold processActionDistribution. rewrite List.in_map_iff. split.
  - intros ([a' v'] & [= -> ->] & Hin).
    now apply (Permutation_in _ (entries_Permutation _)).
  - intros Hin. exists (a, v). split; [reflexivity|].
    now apply (Permutation_in _ (Permutation_sym (entries_Permutation _))).
Qed.

(** X1: when no action is an array index or a name inherited from
    [Object.prototype], the action distribution has one point per distinct
    action, in the order of first encounter, with the number of events of
    that action. *)
Theorem processActionDistribution_first_seen (events : list Event) :
  forallb Spec.ordinary_name (List.map action events) = true ->
  processActionDistribution events
  = List.map (fun a => slice a (Spec.occurrences a (List.map action events)))
             (Spec.first_seen (List.map action events)).
Proof.
  intros H. unfold processActionDistribution.
  rewrite (count_keys_counted _ (ordinary_names_own _ H)).
  unfold Spec.counted.
  rewrite (entries_creation_order _ (tabulate_named _ _ H)).
  unfold Spec.tabulate. rewrite List.map_map. reflexivity.
Qed.

Lemma processActionDistribution_first_seen_witness :
  processActionDistribution action_batch
  = List.map (fun a => slice a (Spec.occurrences a
                                  (List.map action action_batch)))
             (Spec.first_seen (List.map action action_batch)).
Proof.
  apply (processActionDistribution_first_seen action_batch). reflexivity.
Defined.

(** X2: for every batch, the names of the action distribution are
    pairwise distinct, and they are the actions of the batch other than
    [__proto__]: no action is listed twice, none is invented, and only
    [__proto__] is left out. *)
Theorem processActionDistribution_distinct_names (events : list Event) :
  List.NoDup (List.map name (processActionDistribution events))
  /\ forall a,
       List.In a (List.map name (processActionDistribution events))
       <-> List.In a (List.map action events) /\ a <> "__proto__".
Proof.
  rewrite processActionDistribution_names.
  pose proof (entries_names_Permutation
                (count_keys (List.map action events))) as Hperm.
  split.
  - apply (Permutation_NoDup (Permutation_sym Hperm)), count_keys_NoDup.
  - intros a. split.
    + intros Hin. apply (Permutation_in _ Hperm) in Hin.
      rewrite count_keys_names, first_seen_In, List.filter_In in Hin.
      destruct Hin as [Hin Hnp]. split; [assumption|].
      unfold Spec.not_proto in Hnp. apply negb_true_iff in Hnp.
      now apply String.eqb_neq.
    + intros [Hin Hnp]. apply (Permutation_in _ (Permutation_sym Hperm)).
      rewrite count_keys_names, first_seen_In, List.filter_In.
      split; [assumption|]. unfold Spec.not_proto.
      apply negb_true_iff. now apply String.eqb_neq.
Qed.

(** X3: whatever the other actions of the batch are, an action that is no
    name inherited from [Object.prototype] has a point exactly when it
    occurs in the batch, and the value of that point is the number of its
    events. *)
Theorem processActionDistribution_counts (events : list Event) (a : string)
    (v : count_value) :
  JSObject.inherited a = false ->
  List.In {| name := a; value := v |} (processActionDistribution events)
  <-> List.In a (List.map action events)
      /\ v = CNum (Spec.occurrences a (List.map action events)).
Proof.
  intros Ha. rewrite processActionDistribution_In, (count_keys_lookup _ a Ha).
  destruct (Spec.occurrences a (List.map action events) =? 0)%N eqn:Hz.
  - apply N.eqb_eq, occurrences_zero_iff in Hz. split; [discriminate|tauto].
  - apply N.eqb_neq in Hz. rewrite occurrences_zero_iff in Hz. split.
    + intros [= <-]. split; [|reflexivity].
      destruct (List.in_dec String.string_dec a (List.map action events));
        tauto.
    + intros [_ ->]. reflexivity.
Qed.

Lemma processActionDistribution_counts_witness :
  List.In (slice "READ" 2) (processActionDistribution mixed_action_batch).
Proof.
  apply (processActionDistribution_counts mixed_action_batch "READ" (CNum 2));
    [reflexivity|].
  split; [simpl; tauto|reflexivity].
Defined.

Lemma sum_app (l1 l2 : list N) :
  Spec.sum (l1 ++ l2) = (Spec.sum l1 + Spec.sum l2)%N.
Proof.
  unfold Spec.sum. induction l1 as [|n l1 IH]; simpl; [reflexivity|].
  rewrite IH. lia.
Qed.

Lemma sum_Permutation (l1 l2 : list N) :
  Permutation l1 l2 -> Spec.sum l1 = Spec.sum l2.
Proof.
  unfold Spec.sum. induction 1; simpl; lia.
Qed.

Lemma occurrences_cons (x u : string) (l : list string) :
  Spec.occurrences x (u :: l)
  = ((if String.eqb x u then 1 else 0) + Spec.occurrences x l)%N.
Proof.
  unfold Spec.occurrences. simpl. destruct (String.eqb x u); simpl; lia.
Qed.

Lemma sum_occurrences_snoc (l D : list string) (x : string) :
  Spec.sum (List.map (fun u => Spec.occurrences u (l ++ [x])) D)
  = (Spec.sum (List.map (fun u => Spec.occurrences u l) D)
     + Spec.occurrences x D)%N.
Proof.
  induction D as [|u D IH]; [reflexivity|].
  cbn [List.map]. unfold Spec.sum in *. cbn [fold_right].
  rewrite IH, occurrences_snoc, occurrences_cons, (String.eqb_sym x u). lia.
Qed.

Lemma occurrences_NoDup (x : string) (D : list string) :
  List.NoDup D ->
  Spec.occurrences x D = if existsb (String.eqb x) D then 1%N else 0%N.
Proof.
  induction 1 as [|u D Hu Hnd IH]; [reflexivity|].
  rewrite occurrences_cons, IH. simpl.
  destruct (String.eqb_spec x u) as [->|Hxu]; simpl.
  - replace (existsb (String.eqb u) D) with false; [reflexivity|].
    symmetry. apply not_true_is_false. now rewrite existsb_In.
  - now destruct (existsb (String.eqb x) D).
Qed.

(** Every key is counted under exactly one name. *)
Lemma sum_occurrences (l : list string) :
  Spec.sum (List.map (fun u => Spec.occurrences u l) (Spec.first_seen l))
  = N.of_nat (length l).
Proof.
  induction l as [|x l IH] using rev_ind; [reflexivity|].
  rewrite first_seen_snoc, length_app. simpl.
  destruct (existsb (String.eqb x) l) eqn:Hx.
  - rewrite sum_occurrences_snoc, IH,
      (occurrences_NoDup x _ (first_seen_NoDup l)), existsb_first_seen, Hx.
    lia.
  - rewrite List.map_app, sum_app, sum_occurrences_snoc, IH,
      (occurrences_NoDup x _ (first_seen_NoDup l)), existsb_first_seen, Hx.
    simpl. rewrite occurrences_snoc, String.eqb_refl.
    rewrite (occurrences_absent x l).
    + unfold Spec.sum. simpl. lia.
    + intros Hin. apply existsb_In in Hin. congruence.
Qed.

(** X4: when no action is a name inherited from [Object.prototype], every
    value of the action distribution is a number and the values add up to
    the number of events of the batch. *)
Theorem processActionDistribution_total (events : list Event) :
  forallb Spec.own_name (List.map action events) = true ->
  Forall (fun p => exists n, value p = CNum n)
         (processActionDistribution events)
  /\ Spec.sum (List.map (fun p => Spec.number_of (value p))
                        (processActionDistribution events))
     = N.of_nat (length events).
Proof.
  intros H. unfold processActionDistribution.
  rewrite (count_keys_counted _ H).
  pose proof (entries_Permutation (Spec.counted (List.map action events)))
    as Hperm.
  split.
  - apply Forall_forall. intros p Hp. apply list_elem_of_In in Hp.
    apply List.in_map_iff in Hp. destruct Hp as ([a v] & <- & Hin).
    apply (Permutation_in _ Hperm) in Hin. unfold Spec.counted in Hin.
    apply List.in_map_iff in Hin. destruct Hin as (u & [= _ <-] & _).
    simpl. eauto.
  - rewrite List.map_map.
    rewrite (List.map_ext _ (fun kv : string * count_value =>
                               Spec.number_of (snd kv)))
      by now intros [a v].
    rewrite (sum_Permutation _ _
               (Permutation_map
                  (fun kv : string * count_value => Spec.number_of (snd kv))
                  Hperm)).
    unfold Spec.counted, Spec.tabulate. rewrite List.map_map. simpl.
    rewrite sum_occurrences. now rewrite length_map.
Qed.

Lemma processActionDistribution_total_witness :
  Forall (fun p => exists n, value p = CNum n)
         (processActionDistribution action_batch)
  /\ Spec.sum (List.map (fun p => Spec.number_of (value p))
                        (processActionDistribution action_batch))
     = N.of_nat (length action_batch).
Proof.
  apply (processActionDistribution_total action_batch). reflexivity.
Defined.

End ActionDistribution.

(** ** User activity, attack types and timeline *)

Section MoreAggregations.
Import ThreatCharts.

Lemma slice0_short (n : nat) (s : string) :
  String.length s <= n -> JSString.slice0 n s = s.
Proof.
  revert s. induction n as [|n IH]; intros [|a s]; simpl; intros H;
    try reflexivity; try lia.
  f_equal. apply IH. lia.
Qed.

Lemma NoDup_firstn {A} (n : nat) (l : list A) :
  List.NoDup l -> List.NoDup (firstn n l).
Proof.
  intros H. rewrite <- (firstn_skipn n l) in H.
  exact (List.NoDup_app_remove_r _ _ H).
Qed.

Lemma In_firstn {A} (n : nat) (l : list A) (x : A) :
  List.In x (firstn n l) -> List.In x l.
Proof.
  intros H. rewrite <- (firstn_skipn n l). apply List.in_or_app. now left.
Qed.

Lemma processUserActivity_users (events : list Event) :
  List.map user (processUserActivity events)
  = List.map (JSString.slice0 15)
      (firstn 5 (List.map fst
                   (JSObject.entries (count_keys (List.map user_id events))))).
Proof.
  unfold processUserActivity.
  rewrite List.firstn_map, !List.map_map.
  apply List.map_ext. now intros [u a].
Qed.

Lemma entries_names_In (ks : list string) (k : string) :
  List.In k (List.map fst (JSObject.entries (count_keys ks))) ->
  List.In k ks.
Proof.
  intros H. apply (Permutation_in _ (entries_names_Permutation _)) in H.
  rewrite count_keys_names, first_seen_In, List.filter_In in H. tauto.
Qed.

(** X5: when every user id has at most 15 characters, the names of the
    user-activity points are pairwise distinct and each is the id of a user
    of the batch, so no two bars of the chart carry the same name. *)
Theorem processUserActivity_distinct_users (events : list Event) :
  Forall (fun e => String.length (user_id e) <= 15) events ->
  List.NoDup (List.map user (processUserActivity events))
  /\ forall u, List.In u (List.map user (processUserActivity events)) ->
               List.In u (List.map user_id events).
Proof.
  intros Hshort. rewrite processUserActivity_users.
  set (K := List.map fst
              (JSObject.entries (count_keys (List.map user_id events)))).
  assert (HK : forall k, List.In k (firstn 5 K) ->
                         List.In k (List.map user_id events)).
  { intros k Hk. apply entries_names_In. now apply In_firstn in Hk. }
  assert (Hid : List.map (JSString.slice0 15) (firstn 5 K) = firstn 5 K).
  { rewrite <- (List.map_id (firstn 5 K)) at 2.
    apply List.map_ext_in. intros k Hk. apply slice0_short.
    apply HK, List.in_map_iff in Hk. destruct Hk as (e & <- & He).
    rewrite Forall_forall in Hshort. apply Hshort. now apply list_elem_of_In. }
  rewrite Hid. split; [|exact HK].
  apply NoDup_firstn.
  apply (Permutation_NoDup (Permutation_sym (entries_names_Permutation _))).
  apply count_keys_NoDup.
Qed.

Lemma processUserActivity_distinct_users_witness :
  List.NoDup (List.map user (processUserActivity numbered_batch))
  /\ forall u, List.In u (List.map user (processUserActivity numbered_batch)) ->
               List.In u (List.map user_id numbered_batch).
Proof.
  apply (processUserActivity_distinct_users numbered_batch).
  repeat constructor; simpl; lia.
Defined.

(** X6: for every batch, the user-activity chart has as many points as the
    batch has distinct user ids other than [__proto__], and 5 when there
    are more. *)
Theorem processUserActivity_size (events : list Event) :
  length (processUserActivity events)
  = Nat.min 5 (length (Spec.first_seen
                         (List.filter Spec.not_proto
                                      (List.map user_id events)))).
Proof.
  unfold processUserActivity.
  rewrite length_map, length_take, entries_length.
  rewrite <- count_keys_names. now rewrite length_map.
Qed.

(** X7: the attack-type points are the entries of [attack_types], each
    exactly once; a body without [attack_types] gives no point. *)
Theorem processAttackTypes_entries (data : Payload.LiveEvents) :
  Permutation
    (List.map (fun p => (attack_name p, attack_value p))
              (processAttackTypes data))
    (default [] (Payload.attack_types data))
  /\ (Payload.attack_types data = None -> processAttackTypes data = []).
Proof.
  unfold processAttackTypes. split.
  - rewrite List.map_map.
    rewrite (List.map_ext _ (fun kv : string * Z => kv)) by now intros [k v].
    rewrite List.map_id. apply entries_Permutation.
  - intros ->. reflexivity.
Qed.

Lemma timeline_threats (events : list Event) :
  List.map threats (processTimeline events)
  = List.map (fun e => if is_suspicious e then 1%N else 0%N) events.
Proof.
  unfold processTimeline. apply list_eq. intros i.
  change (List.map threats) with (fmap (M:=list) threats).
  change (List.map (fun e => if is_suspicious e then 1%N else 0%N))
    with (fmap (M:=list) (fun e => if is_suspicious e then 1%N else 0%N)).
  rewrite !list_lookup_fmap, list_lookup_imap.
  now destruct (events !! i).
Qed.

Lemma sum_flags (events : list Event) :
  Spec.sum (List.map (fun e => if is_suspicious e then 1%N else 0%N) events)
  = N.of_nat (length (List.filter is_suspicious events)).
Proof.
  unfold Spec.sum. induction events as [|e events IH]; [reflexivity|].
  simpl. rewrite IH. destruct (is_suspicious e); simpl; lia.
Qed.

(** X8: the labels of the timeline are pairwise distinct, every point
    counts exactly one event, and the threat counts add up to the number
    of suspicious events of the batch. *)
Theorem processTimeline_totals (events : list Event) :
  List.NoDup (List.map time (processTimeline events))
  /\ Forall (fun p => (threats p + normal p)%N = 1%N) (processTimeline events)
  /\ Spec.sum (List.map threats (processTimeline events))
     = N.of_nat (length (List.filter is_suspicious events)).
Proof.
  split; [|split].
  - apply NoDup_ListNoDup.
    change (List.map time) with (fmap (M:=list) time).
    apply NoDup_alt. intros i j label Hi Hj.
    unfold processTimeline in Hi, Hj.
    rewrite list_lookup_fmap, list_lookup_imap in Hi, Hj.
    destruct (events !! i) as [ei|]; [|discriminate].
    destruct (events !! j) as [ej|]; [|discriminate].
    simpl in Hi, Hj. rewrite <- Hj in Hi. injection Hi as Hi.
    change (pretty (i + 1) = pretty (j + 1)) in Hi.
    apply (inj (pretty : nat -> string)) in Hi. lia.
  - apply Forall_forall. intros p Hp.
    apply list_elem_of_lookup in Hp. destruct Hp as [i Hi].
    unfold processTimeline in Hi. rewrite list_lookup_imap in Hi.
    destruct (events !! i) as [e|]; [|discriminate].
    injection Hi as <-. simpl. now destruct (is_suspicious e).
  - rewrite timeline_threats. apply sum_flags.
Qed.

End MoreAggregations.

(** ** The event stream *)

Section EventStream.
Import LiveEvents.

Ltac compare_cases :=
  repeat match goal with
    | |- context [(?a ?= ?b)%Z] => destruct (Z.compare_spec a b)
    | H : context [(?a ?= ?b)%Z] |- _ => destruct (Z.compare_spec a b)
    | |- context [Pos.compare_cont Eq ?a ?b] =>
        change (Pos.compare_cont Eq a b) with (Pos.compare a b);
        destruct (Pos.compare_spec a b)
    | H : context [Pos.compare_cont Eq ?a ?b] |- _ =>
        change (Pos.compare_cont Eq a b) with (Pos.compare a b) in H;
        destruct (Pos.compare_spec a b)
    end.

Lemma SFltb_SFleb_trans (x y z : spec_float) :
  SFltb x y = true -> SFleb y z = true -> SFltb x z = true.
Proof.
  unfold SFltb, SFleb.
  destruct x as [sx|sx| |sx mx ex], y as [sy|sy| |sy my ey],
    z as [sz|sz| |sz mz ez]; simpl; try discriminate; try reflexivity;
    try destruct sx; try destruct sy; try destruct sz; simpl;
    try discriminate; try reflexivity;
    compare_cases; simpl; try discriminate; try reflexivity;
    intros; subst; exfalso; lia.
Qed.

Lemma SFleb_SFltb_trans (x y z : spec_float) :
  SFleb x y = true -> SFltb y z = true -> SFltb x z = true.
Proof.
  unfold SFltb, SFleb.
  destruct x as [sx|sx| |sx mx ex], y as [sy|sy| |sy my ey],
    z as [sz|sz| |sz mz ez]; simpl; try discriminate; try reflexivity;
    try destruct sx; try destruct sy; try destruct sz; simpl;
    try discriminate; try reflexivity;
    compare_cases; simpl; try discriminate; try reflexivity;
    intros; subst; exfalso; lia.
Qed.

Lemma SFleb_not_SFltb (x y : spec_float) :
  SFleb x y = true -> SFltb y x = false.
Proof.
  unfold SFltb, SFleb. rewrite (SFcompare_antisym x y).
  destruct (SFcompare x y) as [[]|]; simpl; congruence.
Qed.

Lemma not_SFltb_SFleb (x y z : spec_float) :
  SFltb y x = false -> SFltb z x = true -> SFleb y y = true ->
  SFleb x y = true.
Proof.
  unfold SFltb, SFleb. rewrite (SFcompare_antisym x y).
  destruct x as [sx|sx| |sx mx ex], y as [sy|sy| |sy my ey],
    z as [sz|sz| |sz mz ez]; simpl; try discriminate; try reflexivity;
    try (destruct sx, sy; simpl; congruence);
    try (destruct sx; simpl; congruence);
    try (destruct sy; simpl; congruence);
    destruct sx, sy; simpl; try congruence;
    destruct (ex ?= ey)%Z; simpl; try congruence;
    destruct (Pos.compare_cont Eq mx my); simpl; congruence.
Qed.

Lemma float_ltb_leb_trans (x y z : float) :
  (x <? y)%float = true -> (y <=? z)%float = true -> (x <? z)%float = true.
Proof. rewrite !ltb_spec, leb_spec. apply SFltb_SFleb_trans. Qed.

Lemma float_leb_ltb_trans (x y z : float) :
  (x <=? y)%float = true -> (y <? z)%float = true -> (x <? z)%float = true.
Proof. rewrite !ltb_spec, leb_spec. apply SFleb_SFltb_trans. Qed.

Lemma float_leb_not_ltb (x y : float) :
  (x <=? y)%float = true -> (y <? x)%float = false.
Proof. rewrite ltb_spec, leb_spec. apply SFleb_not_SFltb. Qed.

Lemma float_not_ltb_leb (x y z : float) :
  (y <? x)%float = false -> (z <? x)%float = true ->
  (y <=? y)%float = true -> (x <=? y)%float = true.
Proof. rewrite !ltb_spec, !leb_spec. apply not_SFltb_SFleb. Qed.

Lemma getConfidenceColor_monotone (a b : float) :
  (a <=? b)%float = true ->
  Spec.severity (getConfidenceColor a) <= Spec.severity (getConfidenceColor b).
Proof.
  intros Hab. unfold getConfidenceColor.
  destruct (0.8 <? a)%float eqn:Ha1.
  { now rewrite (float_ltb_leb_trans _ _ _ Ha1 Hab). }
  destruct (0.6 <? a)%float eqn:Ha2.
  { rewrite (float_ltb_leb_trans _ _ _ Ha2 Hab).
    destruct (0.8 <? b)%float; simpl; lia. }
  simpl. lia.
Qed.

(** X9: the confidence scheme is red exactly for [confidence > 0.8],
    orange exactly for [0.6 < confidence <= 0.8] and yellow otherwise (a
    NaN included), so that [0.8] itself is orange and [0.6] itself is
    yellow; a larger confidence never gets a milder scheme. *)
Theorem getConfidenceColor_buckets :
  (forall c : float,
      (getConfidenceColor c = red <-> (0.8 <? c)%float = true)
      /\ (getConfidenceColor c = orange
          <-> (0.6 <? c)%float = true /\ (c <=? 0.8)%float = true)
      /\ (getConfidenceColor c = yellow <-> (0.6 <? c)%float = false))
  /\ (getConfidenceColor 0.8 = orange /\ getConfidenceColor 0.6 = yellow)
  /\ (forall a b : float,
        (a <=? b)%float = true ->
        Spec.severity (getConfidenceColor a)
        <= Spec.severity (getConfidenceColor b)).
Proof.
  split; [|split; [split; reflexivity|exact getConfidenceColor_monotone]].
  intros c.
  assert (H88 : (0.8 <=? 0.8)%float = true) by reflexivity.
  assert (H68 : (0.6 <=? 0.8)%float = true) by reflexivity.
  pose proof (float_leb_ltb_trans 0.6 0.8 c H68) as T.
  unfold getConfidenceColor.
  destruct (0.8 <? c)%float eqn:E1.
  { specialize (T eq_refl). repeat split; try discriminate; try congruence.
    intros [_ H]. apply float_leb_not_ltb in H. congruence. }
  destruct (0.6 <? c)%float eqn:E2.
  { repeat split; try discriminate; try congruence.
    now apply (float_not_ltb_leb c 0.8 0.6). }
  repeat split; try discriminate; try congruence.
  intros [H _]. congruence.
Qed.

Lemma getConfidenceColor_buckets_witness :
  Spec.severity (getConfidenceColor 0.61)
  <= Spec.severity (getConfidenceColor 0.81).
Proof.
  apply (proj2 (proj2 getConfidenceColor_buckets) 0.61%float 0.81%float).
  reflexivity.
Defined.

Lemma enrich_rows (net : nat -> Event -> http_outcome json)
    (rawEvents : list Event) (i : nat) (e : Event) :
  rawEvents !! i = Some e ->
  List.map row (enrich net rawEvents) !! i
  = Some (row (predict (net i e) e)).
Proof.
  intros He.
  change (List.map row) with (fmap (M:=list) row).
  now rewrite list_lookup_fmap, enrich_lookup, He.
Qed.

(** X10: in the stream, an event delivered without a prediction whose
    prediction request did not complete, or was answered with a body that
    did not decode, is drawn as a plain row (gray background, green border
    and badge, no confidence badge), whether or not the source marked it
    suspicious. An event whose answer carried a verdict
    [{prediction: label, confidence: c}] is flagged red exactly when
    [label] is the string [suspicious], with a confidence badge coloured by
    [getConfidenceColor c]. An answer whose body is truthy but holds no
    string under [prediction], such as an error body, makes the row throw,
    whatever the status of the answer. *)
Theorem rows_follow_the_verdict
    (net : nat -> Event -> http_outcome json)
    (rawEvents : list Event) (i : nat) (e : Event) :
  rawEvents !! i = Some e ->
  (Spec.succeeded (net i e) = None -> ml_prediction e = None ->
   List.map row (enrich net rawEvents) !! i = Some (Drawn Spec.plain_row))
  /\ (forall ok label c,
        net i e
        = Response ok (Some (verdict_body {| prediction := label;
                                             confidence := c |})) ->
        List.map row (enrich net rawEvents) !! i
        = Some (Drawn (Spec.verdict_row label c))
        /\ badgeScheme (Some (JNumber c)) = Some (getConfidenceColor c))
  /\ (forall ok v,
        net i e = Response ok (Some v) ->
        JSON.truthy v = true ->
        (forall s, JSON.field "prediction" v <> Some (JString s)) ->
        List.map row (enrich net rawEvents) !! i = Some TypeError).
Proof.
  intros He. rewrite (enrich_rows net rawEvents i e He). split; [|split].
  - intros Hfail Hnone.
    destruct (net i e) as [|ok [v|]]; simpl in Hfail; try discriminate;
      simpl; unfold row, flagged; now rewrite Hnone.
  - intros ok label c ->. split; [|reflexivity].
    unfold row, flagged, Spec.verdict_row. simpl.
    now destruct (String.eqb label "suspicious").
  - intros ok v -> Htruthy Hnot. simpl. unfold row. simpl.
    rewrite Htruthy.
    destruct (JSON.field "prediction" v) as [[| | |s| |]|] eqn:Hf;
      try reflexivity.
    now destruct (Hnot s).
Qed.

Lemma rows_follow_the_verdict_witness :
  List.map row (enrich server_errors [sample_event "u1" true]) !! 0%nat
  = Some TypeError.
Proof.
  apply (proj2 (proj2 (rows_follow_the_verdict server_errors
                         [sample_event "u1" true] 0
                         (sample_event "u1" true) eq_refl))
               false error_body);
    [reflexivity|reflexivity|].
  intros s. vm_compute. discriminate.
Defined.

End EventStream.

(** ** Widgets across fetch cycles *)

Section Widgets.

Lemma last_body_snoc {B} (rs : list (http_outcome B)) (r : http_outcome B) :
  Spec.last_body (rs ++ [r])
  = match Spec.succeeded r with
    | Some b => Some b
    | None => Spec.last_body rs
    end.
Proof.
  induction rs as [|r0 rs IH]; simpl.
  - now destruct (Spec.succeeded r).
  - rewrite IH. destruct (Spec.succeeded r); [reflexivity|].
    reflexivity.
Qed.

Lemma ThreatCharts_run_last (chartData : ThreatCharts.State)
    (responses : list (http_outcome Payload.LiveEvents)) :
  ThreatCharts.run chartData responses
  = match Spec.last_body responses with
    | Some data => Some (ThreatCharts.charts_of data)
    | None => chartData
    end.
Proof.
  induction responses as [|r rs IH] using rev_ind; [reflexivity|].
  unfold ThreatCharts.run in *. rewrite fold_left_app, last_body_snoc. simpl.
  rewrite IH. now destruct r as [|ok [d|]].
Qed.

(** X11: after any sequence of chart fetches, the chart widget shows the
    series computed from the last body that decoded, whatever came before
    and whatever its HTTP status; when none decoded it shows what it
    showed before. A decoded body without [events] and [attack_types]
    therefore replaces the charts by four empty series. *)
Theorem ThreatCharts_shows_last_body (chartData : ThreatCharts.State)
    (responses : list (http_outcome Payload.LiveEvents)) :
  (forall data, Spec.last_body responses = Some data ->
     ThreatCharts.render (ThreatCharts.run chartData responses)
     = ThreatCharts.Charts (ThreatCharts.charts_of data))
  /\ (Spec.last_body responses = None ->
      ThreatCharts.run chartData responses = chartData)
  /\ (forall data, Spec.last_body responses = Some data ->
        Payload.events data = None -> Payload.attack_types data = None ->
        ThreatCharts.render (ThreatCharts.run chartData responses)
        = ThreatCharts.Charts
            {| ThreatCharts.timeline := [];
               ThreatCharts.userActivity := [];
               ThreatCharts.actionDistribution := [];
               ThreatCharts.attackTypes := [] |}).
Proof.
  rewrite ThreatCharts_run_last. split; [|split].
  - now intros data ->.
  - now intros ->.
  - intros data -> He Ha. simpl. unfold ThreatCharts.charts_of,
      ThreatCharts.processAttackTypes. now rewrite He, Ha.
Qed.

Lemma ThreatCharts_shows_last_body_witness :
  ThreatCharts.render
    (ThreatCharts.run None
       [Response true (Some sample_live); NetworkError; Response false None])
  = ThreatCharts.Charts (ThreatCharts.charts_of sample_live).
Proof.
  apply (ThreatCharts_shows_last_body None
           [Response true (Some sample_live); NetworkError;
            Response false None]).
  reflexivity.
Defined.

Lemma ROCCurve_run_last (rocData : option ROCCurve.ROCData)
    (responses : list (http_outcome ROCCurve.ROCData)) :
  ROCCurve.run rocData responses
  = match Spec.last_body responses with
    | Some data => Some data
    | None => rocData
    end.
Proof.
  induction responses as [|r rs IH] using rev_ind; [reflexivity|].
  unfold ROCCurve.run in *. rewrite fold_left_app, last_body_snoc. simpl.
  rewrite IH. now destruct r as [|ok [d|]].
Qed.

(** X12: after any sequence of ROC fetches the component draws the curve
    of the last body that decoded, with as many points as that body's
    [fpr] has entries; it draws nothing when that body has no [fpr], even
    if an earlier body had one, and failed fetches change nothing. *)
Theorem ROCCurve_draws_last_body (rocData : option ROCCurve.ROCData)
    (responses : list (http_outcome ROCCurve.ROCData)) :
  (forall data, Spec.last_body responses = Some data ->
     ROCCurve.render (ROCCurve.run rocData responses)
     = ROCCurve.render (Some data)
     /\ (ROCCurve.fpr data = None ->
         ROCCurve.render (ROCCurve.run rocData responses) = None)
     /\ (forall fprs, ROCCurve.fpr data = Some fprs ->
         exists chart,
           ROCCurve.render (ROCCurve.run rocData responses) = Some chart
           /\ length (ROCCurve.curve chart) = length fprs))
  /\ (Spec.last_body responses = None ->
      ROCCurve.run rocData responses = rocData).
Proof.
  rewrite ROCCurve_run_last. split.
  - intros data ->. split; [reflexivity|]. split.
    + intros H. simpl. now rewrite H.
    + intros fprs H. simpl. rewrite H. eexists. split; [reflexivity|].
      simpl. apply chartData_length.
  - now intros ->.
Qed.

Lemma ROCCurve_draws_last_body_witness :
  ROCCurve.render
    (ROCCurve.run None [Response true (Some sample_roc);
                        Response false (Some error_roc); NetworkError])
  = None.
Proof.
  apply (proj1 (ROCCurve_draws_last_body None
                  [Response true (Some sample_roc);
                   Response false (Some error_roc); NetworkError])
               error_roc);
    reflexivity.
Defined.

Lemma ConfusionMatrix_run_last
    (data : option ConfusionMatrix.ConfusionMatrixData)
    (responses : list (http_outcome ConfusionMatrix.ConfusionMatrixData)) :
  ConfusionMatrix.run data responses
  = match Spec.last_body responses with
    | Some result => Some result
    | None => data
    end.
Proof.
  induction responses as [|r rs IH] using rev_ind; [reflexivity|].
  unfold ConfusionMatrix.run in *.
  rewrite fold_left_app, last_body_snoc. simpl.
  rewrite IH. now destruct r as [|ok [d|]].
Qed.

(** X13: after any sequence of metric fetches the panel shows the four
    cells of the last body that decoded, as delivered; it shows nothing
    when that body has no [confusion_matrix], and failed fetches change
    nothing. *)
Theorem ConfusionMatrix_shows_last_body
    (data : option ConfusionMatrix.ConfusionMatrixData)
    (responses : list (http_outcome ConfusionMatrix.ConfusionMatrixData)) :
  (forall result, Spec.last_body responses = Some result ->
     (ConfusionMatrix.confusion_matrix result = None ->
      ConfusionMatrix.render (ConfusionMatrix.run data responses) = None)
     /\ (forall cm, ConfusionMatrix.confusion_matrix result = Some cm ->
         exists panel,
           ConfusionMatrix.render (ConfusionMatrix.run data responses)
           = Some panel
           /\ ConfusionMatrix.cells panel = cm
           /\ ConfusionMatrix.samples panel
              = ConfusionMatrix.test_size result))
  /\ (Spec.last_body responses = None ->
      ConfusionMatrix.run data responses = data).
Proof.
  rewrite ConfusionMatrix_run_last. split.
  - intros result ->. split.
    + intros H. simpl. now rewrite H.
    + intros cm H. simpl. rewrite H. eexists. now repeat split.
  - now intros ->.
Qed.

Lemma ConfusionMatrix_shows_last_body_witness :
  exists panel,
    ConfusionMatrix.render
      (ConfusionMatrix.run None [Response true (Some sample_metrics);
                                 NetworkError])
    = Some panel
    /\ ConfusionMatrix.cells panel
       = {| ConfusionMatrix.true_negative := 90;
            ConfusionMatrix.false_positive := 3;
            ConfusionMatrix.false_negative := 2;
            ConfusionMatrix.true_positive := 5 |}
    /\ ConfusionMatrix.samples panel
       = ConfusionMatrix.test_size sample_metrics.
Proof.
  apply (proj1 (ConfusionMatrix_shows_last_body None
                  [Response true (Some sample_metrics); NetworkError])
               sample_metrics);
    reflexivity.
Defined.

(** X14: the event stream keeps nothing from earlier cycles: after a
    cycle whose live-events body decoded, followed by any number of cycles
    whose body did not, the state is the one that cycle alone produces from
    any state, with one event per delivered event; the "No events yet"
    text is shown exactly when that body delivered no event. *)
Theorem LiveEvents_state_is_last_delivery
    (s s' : LiveEvents.State) (before after : list LiveEvents.Cycle)
    (c : LiveEvents.Cycle) (data : Payload.LiveEvents) :
  Spec.succeeded (LiveEvents.live_response c) = Some data ->
  Forall (fun c' => Spec.succeeded (LiveEvents.live_response c') = None)
         after ->
  LiveEvents.run s (before ++ c :: after) = LiveEvents.run s' [c]
  /\ length (LiveEvents.events (LiveEvents.run s (before ++ c :: after)))
     = length (default [] (Payload.events data))
  /\ (LiveEvents.stream
        (LiveEvents.render (LiveEvents.run s (before ++ c :: after)))
      = LiveEvents.NoEventsYet
      <-> default [] (Payload.events data) = []).
Proof.
  intros Hc Hafter.
  assert (Hskip : forall st,
            LiveEvents.run st after = st).
  { induction Hafter as [|c' after Hc' _ IH]; intros st; [reflexivity|].
    unfold LiveEvents.run in *. simpl.
    destruct (LiveEvents.live_response c') as [|ok [d|]];
      simpl in Hc' |- *; try discriminate; apply IH. }
  assert (Hrun : LiveEvents.run s (before ++ c :: after)
                 = LiveEvents.run s' [c]).
  { unfold LiveEvents.run in *. rewrite fold_left_app. simpl.
    rewrite Hskip.
    destruct (LiveEvents.live_response c) as [|ok [d|]];
      simpl in Hc |- *; try discriminate. reflexivity. }
  rewrite Hrun. split; [reflexivity|].
  unfold LiveEvents.run. simpl.
  destruct (LiveEvents.live_response c) as [|ok [d|]];
    simpl in Hc; try discriminate. injection Hc as ->.
  unfold LiveEvents.render. simpl.
  unfold LiveEvents.enrich. rewrite length_imap.
  split; [reflexivity|].
  destruct (default [] (Payload.events data)); simpl; split;
    congruence.
Qed.

Lemma LiveEvents_state_is_last_delivery_witness :
  LiveEvents.run LiveEvents.initial
    ([ {| LiveEvents.live_response := NetworkError;
          LiveEvents.predict_responses := second_fails |} ]
     ++ {| LiveEvents.live_response := Response true (Some sample_live);
           LiveEvents.predict_responses := second_fails |}
     :: [ {| LiveEvents.live_response := Response false None;
             LiveEvents.predict_responses := second_fails |} ])
  = LiveEvents.run LiveEvents.initial
      [ {| LiveEvents.live_response := Response true (Some sample_live);
           LiveEvents.predict_responses := second_fails |} ].
Proof.
  apply (LiveEvents_state_is_last_delivery
           LiveEvents.initial LiveEvents.initial
           [ {| LiveEvents.live_response := NetworkError;
                LiveEvents.predict_responses := second_fails |} ]
           [ {| LiveEvents.live_response := Response false None;
                LiveEvents.predict_responses := second_fails |} ]
           {| LiveEvents.live_response := Response true (Some sample_live);
              LiveEvents.predict_responses := second_fails |}
           sample_live).
  - reflexivity.
  - repeat constructor.
Defined.

End Widgets.

(** ** The Dashboard across fetch cycles *)

Section DashboardHistory.
Import App.

(** X20: [getTestData] and [getHealth] fulfil exactly on an answer with a
    2xx status and a body that decodes, with that body; the inline
    nosy-admin request fulfils on every answer whose body decodes, whatever
    its status. *)
Theorem summary_requests_fulfil :
  (forall (r : http_outcome TestData) (b : TestData),
      Api.getTestData r = Api.Fulfilled b <-> r = Response true (Some b))
  /\ (forall (r : http_outcome HealthData) (b : HealthData),
        Api.getHealth r = Api.Fulfilled b <-> r = Response true (Some b))
  /\ (forall (r : http_outcome NosyAdminData) (b : NosyAdminData),
        nosyAdminRequest r = Api.Fulfilled b
        <-> exists ok, r = Response ok (Some b)).
Proof.
  unfold Api.getTestData, Api.getHealth, nosyAdminRequest.
  split; [|split]; intros r b; destruct r as [|[] [b'|]]; simpl;
    split; intros H;
    repeat match goal with
      | H : ex _ |- _ => destruct H
      end;
    try discriminate; try (injection H as ->); try reflexivity; eauto.
  all: injection H as _ ->; reflexivity.
Qed.

Lemma run_snoc (s : State) (cycles : list Cycle) (c : Cycle) :
  run s (cycles ++ [c]) = fetchData (run s cycles) c.
Proof. unfold run. now rewrite fold_left_app. Qed.

(** The error cell after a history: set as soon as one cycle failed. *)
Lemma run_error (t : Z) (cycles : list Cycle) :
  error (run (initial t) cycles)
  = if existsb Spec.some_fetch_fails cycles
    then Some "Failed to connect to backend" else None.
Proof.
  induction cycles as [|c cycles IH] using rev_ind; [reflexivity|].
  rewrite run_snoc, existsb_app. simpl. rewrite orb_false_r.
  destruct (Spec.some_fetch_fails c) eqn:Hc.
  - rewrite orb_true_r. apply summary_rejects in Hc.
    now rewrite (fetchData_rejected _ c Hc).
  - rewrite orb_false_r. apply summary_fulfils in Hc.
    destruct Hc as (test & health & nosy & ok & _ & _ & _ & Hsum).
    now rewrite (fetchData_fulfilled _ c _ _ _ Hsum).
Qed.

Lemma run_loading (t : Z) (cycles : list Cycle) :
  loading (run (initial t) cycles)
  = match cycles with [] => true | _ :: _ => false end.
Proof.
  induction cycles as [|c cycles _] using rev_ind; [reflexivity|].
  rewrite run_snoc. unfold fetchData.
  destruct (summary c) as [[[? ?] ?]|]; simpl; now destruct cycles.
Qed.

(** X15: the screen of the Dashboard as a function of its history since
    mount: the spinner exactly before the first cycle has ended, the
    connection error exactly when some cycle so far has failed, and the
    dashboard otherwise. *)
Theorem dashboard_screen_by_history (t : Z) (cycles : list Cycle) :
  (render (run (initial t) cycles) = Initializing <-> cycles = [])
  /\ (render (run (initial t) cycles) = Spec.connection_error
      <-> existsb Spec.some_fetch_fails cycles = true)
  /\ ((exists shown, render (run (initial t) cycles) = Ready shown)
      <-> cycles <> [] /\ existsb Spec.some_fetch_fails cycles = false).
Proof.
  unfold render. rewrite run_loading, run_error.
  destruct cycles as [|c cycles]; simpl;
    [|destruct (Spec.some_fetch_fails c
                || existsb Spec.some_fetch_fails cycles); simpl];
    repeat split; intros;
    repeat match goal with
      | H : ex _ |- _ => destruct H
      | H : _ /\ _ |- _ => destruct H
      end;
    try discriminate; try congruence; eauto.
Qed.

(** X16: when every cycle since mount has succeeded, the dashboard shows
    the data of the last cycle only: its test and health bodies, the alert
    computed from its nosy-admin body, and its time. *)
Theorem dashboard_shows_last_cycle (t : Z) (cycles : list Cycle) (c : Cycle)
    (test : TestData) (health : HealthData) (nosyAdmin : NosyAdminData) :
  existsb Spec.some_fetch_fails (cycles ++ [c]) = false ->
  summary c = Api.Fulfilled (test, health, nosyAdmin) ->
  render (run (initial t) (cycles ++ [c]))
  = Ready {| shown_test := Some test;
             shown_health := Some health;
             shown_alert := alert (Some nosyAdmin);
             shown_update := now c |}.
Proof.
  intros Hok Hsum. unfold render.
  rewrite run_loading, run_error, Hok.
  destruct (cycles ++ [c]) eqn:Hne; [now destruct cycles|].
  rewrite <- Hne, run_snoc, (fetchData_fulfilled _ c _ _ _ Hsum).
  reflexivity.
Qed.

Lemma dashboard_shows_last_cycle_witness :
  render (run (initial 0) ([good_cycle 10] ++ [good_cycle 20]))
  = Ready {| shown_test := Some sample_test;
             shown_health := Some sample_health;
             shown_alert := alert (Some nosy_pair);
             shown_update := now (good_cycle 20) |}.
Proof.
  apply (dashboard_shows_last_cycle 0 [good_cycle 10] (good_cycle 20)
           sample_test sample_health nosy_pair);
    reflexivity.
Defined.

(** X17: the alert box is drawn exactly when the stored nosy-admin body
    has a non-empty mapping, and then it lists every admin of the mapping
    with its count exactly once. *)
Theorem alert_lists_every_admin (nosyAdmins : option NosyAdminData) :
  (alert nosyAdmins = None <-> hasNosyAdmins nosyAdmins = false)
  /\ forall d lines,
       nosyAdmins = Some d -> alert nosyAdmins = Some lines ->
       Permutation lines (mapping d) /\ lines <> [].
Proof.
  unfold alert. split.
  - destruct (hasNosyAdmins nosyAdmins) eqn:H.
    + destruct nosyAdmins; [split; discriminate|discriminate].
    + split; reflexivity.
  - intros d lines -> H.
    destruct (hasNosyAdmins (Some d)) eqn:Hh; [|discriminate].
    injection H as <-. split; [apply entries_Permutation|].
    apply hasNosyAdmins_nonempty in Hh. intros Hnil. apply Hh.
    apply (f_equal (@length _)) in Hnil. rewrite entries_length in Hnil.
    now destruct (mapping d).
Qed.

Lemma alert_lists_every_admin_witness :
  Permutation [("admin_1", 25%Z); ("admin_2", 12%Z)] (mapping nosy_pair)
  /\ [("admin_1", 25%Z); ("admin_2", 12%Z)] <> [].
Proof.
  apply (proj2 (alert_lists_every_admin (Some nosy_pair)) nosy_pair);
    reflexivity.
Defined.

End DashboardHistory.

(** ** More on the ROC curve *)

Section MoreROC.
Import ROCCurve.

(** X18: the curve has one point per entry of [fpr] whatever the lengths
    of the other two arrays; the point at an index of [fpr] carries that
    [fpr], and its [tpr] (its threshold) is undefined exactly when [tpr]
    ([thresholds]) is too short to have that index. *)
Theorem chartData_ragged_arrays (fprs : list float) (d : ROCData) (i : nat) :
  i < length fprs ->
  length (chartData fprs d) = length fprs
  /\ exists p,
       chartData fprs d !! i = Some p
       /\ fprs !! i = Some (p_fpr p)
       /\ (p_tpr p = None <-> length (tpr d) <= i)
       /\ (p_threshold p = None <-> length (thresholds d) <= i).
Proof.
  intros Hi. split; [apply chartData_length|].
  destruct (lookup_lt_is_Some_2 fprs i Hi) as [f Hf].
  eexists. rewrite chartData_lookup, Hf. simpl.
  repeat split; try apply lookup_ge_None.
Qed.

Lemma chartData_ragged_arrays_witness :
  length (chartData [0; 0.25; 1]%float ragged_roc)
  = length [0; 0.25; 1]%float
  /\ exists p,
       chartData [0; 0.25; 1]%float ragged_roc !! 2%nat = Some p
       /\ [0; 0.25; 1]%float !! 2%nat = Some (p_fpr p)
       /\ (p_tpr p = None <-> length (tpr ragged_roc) <= 2)
       /\ (p_threshold p = None <-> length (thresholds ragged_roc) <= 2).
Proof.
  apply (chartData_ragged_arrays [0; 0.25; 1]%float ragged_roc 2).
  simpl. lia.
Defined.

(** X19: the interpretation text says "perfect" exactly when the AUC badge
    is green, and "excellent" for every other badge, the red one
    included. *)
Theorem interpretation_word_follows_badge (auc : float) :
  (interpretation_word auc = " perfect" <-> getAUCColor auc = green)
  /\ (interpretation_word auc = " excellent" <-> getAUCColor auc <> green).
Proof.
  unfold interpretation_word, getAUCColor.
  destruct (0.95 <=? auc)%float; [split; split; congruence|].
  destruct (0.90 <=? auc)%float, (0.80 <=? auc)%float;
    split; split; congruence.
Qed.

End MoreROC.
